(** * RaychelLogger: a shallow embedding of the logger and its timer registry

    The development follows the C++ sources of the library:
    - [include/RaychelLogger/Logger.h] (entry points, [logConcurrent], and in
      the later revision the duration templates),
    - [src/Logger.cpp] (the process-wide state, printing, the stream lock, the
      timer registry and the log file handling).

    Two revisions of [Logger.h]/[Logger.cpp] are part of the sources.  They
    share the printing, locking and filtering code verbatim (the internal
    namespace is called [_] in one and [details] in the other); they differ in
    the timer API.  The shared code is embedded once; the timer API of each
    revision lives in its own module ([Fixed]: [duration_t] is milliseconds,
    [Templated]: the internal timer is in nanoseconds and the public functions
    are templates over the duration type).

    The static variables of [Logger.cpp] become the fields of one record
    [State]; every function is a state transformer.  The model describes one
    calling thread: [mtx] is the number of times that thread owns the
    recursive mutex. *)

From Stdlib Require Import ZArith String Ascii List Bool Lia.
From Stdlib Require Import DecimalString HexadecimalString.
From stdpp Require Import gmap strings.
Import ListNotations.

Local Open Scope list_scope.
Local Open Scope string_scope.

(** ** The level enumeration *)

(** [enum class LogLevel : size_t { debug, info, warn, error, critical, fatal, log }] *)
Module LogLevel.

Inductive t : Set := debug | info | warn | error | critical | fatal | log.

(** [static_cast<size_t>(level)] *)
Definition to_size_t (l : t) : N :=
  match l with
  | debug => 0
  | info => 1
  | warn => 2
  | error => 3
  | critical => 4
  | fatal => 5
  | log => 6
  end%N.

(** [a < b] on the scoped enumeration compares the underlying values. *)
Definition ltb (a b : t) : bool := (to_size_t a <? to_size_t b)%N.
Definition leb (a b : t) : bool := (to_size_t a <=? to_size_t b)%N.

#[global] Instance eq_dec : EqDecision t.
Proof. solve_decision. Defined.

(** [a != b] *)
Definition neqb (a b : t) : bool := negb (bool_decide (a = b)).

End LogLevel.

(** ** The process-wide state *)

(** The stream buffers [outStream] can point at: the one of [std::cout], the
    one owned by the static [logFile], or the buffer of a caller's stream
    handed to [setOutStream]. *)
Inductive streambuf : Set :=
| cout_rdbuf
| logFile_rdbuf
| user_rdbuf (id : nat).

#[global] Instance streambuf_eq_dec : EqDecision streambuf.
Proof. solve_decision. Defined.

(** [dir / filename], kept as its two components. *)
Record path : Set := mk_path { path_directory : string; path_filename : string }.

Record State : Type := mkState {
  currentLevel : LogLevel.t;
  minLogLevel : LogLevel.t;
  doColor : bool;
  (** [outStream.rdbuf()] *)
  outStream : streambuf;
  (** [Some p] when [logFile.is_open()], with the path it was opened on *)
  logFile : option path;
  (** ownership count of the [std::recursive_mutex] by the calling thread *)
  mtx : nat;
  mtx_engaged : bool;
  (** [std::unordered_map<std::string, timePoint_t>], instants in clock ticks
      (nanoseconds) *)
  timePoints : gmap string Z;
  (** [std::array<std::string_view, 7>], indexed by the level *)
  levelLabels : LogLevel.t -> string;
  cols : LogLevel.t -> string;
  (** every [write] performed so far: the buffer it went to and the bytes *)
  written : list (streambuf * string)
}.

Definition set_currentLevel (v : LogLevel.t) (st : State) : State :=
  mkState v (minLogLevel st) (doColor st) (outStream st) (logFile st) (mtx st)
          (mtx_engaged st) (timePoints st) (levelLabels st) (cols st) (written st).
Definition set_minLogLevel (v : LogLevel.t) (st : State) : State :=
  mkState (currentLevel st) v (doColor st) (outStream st) (logFile st) (mtx st)
          (mtx_engaged st) (timePoints st) (levelLabels st) (cols st) (written st).
Definition set_doColor (v : bool) (st : State) : State :=
  mkState (currentLevel st) (minLogLevel st) v (outStream st) (logFile st) (mtx st)
          (mtx_engaged st) (timePoints st) (levelLabels st) (cols st) (written st).
Definition set_outStream (v : streambuf) (st : State) : State :=
  mkState (currentLevel st) (minLogLevel st) (doColor st) v (logFile st) (mtx st)
          (mtx_engaged st) (timePoints st) (levelLabels st) (cols st) (written st).
Definition set_logFile (v : option path) (st : State) : State :=
  mkState (currentLevel st) (minLogLevel st) (doColor st) (outStream st) v (mtx st)
          (mtx_engaged st) (timePoints st) (levelLabels st) (cols st) (written st).
Definition set_mtx (v : nat) (st : State) : State :=
  mkState (currentLevel st) (minLogLevel st) (doColor st) (outStream st) (logFile st) v
          (mtx_engaged st) (timePoints st) (levelLabels st) (cols st) (written st).
Definition set_mtx_engaged (v : bool) (st : State) : State :=
  mkState (currentLevel st) (minLogLevel st) (doColor st) (outStream st) (logFile st) (mtx st)
          v (timePoints st) (levelLabels st) (cols st) (written st).
Definition set_timePoints (v : gmap string Z) (st : State) : State :=
  mkState (currentLevel st) (minLogLevel st) (doColor st) (outStream st) (logFile st) (mtx st)
          (mtx_engaged st) v (levelLabels st) (cols st) (written st).
Definition set_levelLabels (v : LogLevel.t -> string) (st : State) : State :=
  mkState (currentLevel st) (minLogLevel st) (doColor st) (outStream st) (logFile st) (mtx st)
          (mtx_engaged st) (timePoints st) v (cols st) (written st).
Definition set_cols (v : LogLevel.t -> string) (st : State) : State :=
  mkState (currentLevel st) (minLogLevel st) (doColor st) (outStream st) (logFile st) (mtx st)
          (mtx_engaged st) (timePoints st) (levelLabels st) v (written st).
Definition set_written (v : list (streambuf * string)) (st : State) : State :=
  mkState (currentLevel st) (minLogLevel st) (doColor st) (outStream st) (logFile st) (mtx st)
          (mtx_engaged st) (timePoints st) (levelLabels st) (cols st) v.

(** The escape character [\x1b]. *)
Definition esc : string := String (ascii_of_nat 27) "".
Definition newline : string := String (ascii_of_nat 10) "".

(** [constexpr std::string_view reset_col = "\x1b[0m"] *)
Definition reset_col : string := esc ++ "[0m".

Definition default_levelLabels (l : LogLevel.t) : string :=
  match l with
  | LogLevel.debug => "DEBUG"
  | LogLevel.info => "INFO"
  | LogLevel.warn => "WARNING"
  | LogLevel.error => "ERROR"
  | LogLevel.critical => "CRITICAL"
  | LogLevel.fatal => "FATAL"
  | LogLevel.log => "OUT"
  end.

Definition default_cols (l : LogLevel.t) : string :=
  match l with
  | LogLevel.debug => esc ++ "[36m"
  | LogLevel.info => esc ++ "[32m"
  | LogLevel.warn => esc ++ "[33m"
  | LogLevel.error => esc ++ "[31m"
  | LogLevel.critical => esc ++ "[1;31m"
  | LogLevel.fatal => esc ++ "[4;1;31m"
  | LogLevel.log => esc ++ "[34m"
  end.

(** The static initialisers of [Logger.cpp]. *)
Definition initial : State :=
  {| currentLevel := LogLevel.info;
     minLogLevel := LogLevel.info;
     doColor := true;
     outStream := cout_rdbuf;
     logFile := None;
     mtx := 0;
     mtx_engaged := false;
     timePoints := ∅;
     levelLabels := default_levelLabels;
     cols := default_cols;
     written := [] |}.

(** [outStream.write(data, size)]: the bytes go to the buffer [outStream]
    currently points at. *)
Definition write (bytes : string) (st : State) : State :=
  set_written (written st ++ [(outStream st, bytes)])%list st.

Definition getLogLabel (st : State) : string :=
  levelLabels st (currentLevel st).

Definition getLogColor (st : State) : string :=
  if doColor st then cols st (currentLevel st) else "".

(** ** Values that can be logged *)

(** The variadic, heterogeneous arguments of the entry points.  What matters
    to the logger is which overload of [logObj] a value selects and the text
    its [operator<<] produces. *)
Inductive Loggable : Type :=
| Text (s : string)
  (** [std::string], [std::string_view], string literals and C strings *)
| Char (c : ascii)
| Integer (z : Z)
  (** an integral value, as [dur.count()] *)
| NonStreamable (type_name : string) (address : N).
  (** a value without [operator<<] *)

(** [std::ostringstream << z] for an integral [z] *)
Definition decimal (z : Z) : string :=
  DecimalString.NilZero.string_of_int (Z.to_int z).

(** [std::hex << address] *)
Definition hexadecimal (n : N) : string :=
  HexadecimalString.NilZero.string_of_uint (N.to_hex_uint n).

Module details.

Definition requiredLevel (st : State) : LogLevel.t := minLogLevel st.

Definition setLogLevel (level : LogLevel.t) (st : State) : State :=
  set_currentLevel level st.

Definition printWithoutLabel (msg : string) (st : State) : State :=
  if doColor st then
    let col := getLogColor st in
    let st := write col st in
    let st := write msg st in
    write reset_col st
  else
    write msg st.

Definition print (msg : string) (st : State) : State :=
  let st :=
    if doColor st then
      let col := getLogColor st in
      let label := getLogLabel st in
      let st := write col st in
      let st := write "[" st in
      let st := write label st in
      let st := write "] " st in
      write reset_col st
    else
      let label := getLogLabel st in
      let st := write "[" st in
      let st := write label st in
      write "] " st in
  printWithoutLabel msg st.

(** [mtx.lock(); mtx_engaged = true;] For the calling thread, locking a
    recursive mutex raises its ownership count. *)
Definition lockStream (st : State) : State :=
  set_mtx_engaged true (set_mtx (S (mtx st)) st).

(** [if (mtx_engaged) { mtx_engaged = false; mtx.unlock(); }] *)
Definition unlockStream (st : State) : State :=
  if mtx_engaged st then set_mtx (Nat.pred (mtx st)) (set_mtx_engaged false st)
  else st.

(** [RAYCHELLOGGER_LOCK_STREAM()] (written out by hand in the earlier
    revision): lock, and run [unlockStream] from the destructor of a
    [Finally] object when the enclosing function returns. *)
Definition LOCK_STREAM (body : State -> State) (st : State) : State :=
  unlockStream (body (lockStream st)).

(** The same for a function that returns a value. *)
Definition LOCK_STREAM_ret {A : Type} (body : State -> A * State) (st : State) : A * State :=
  let '(r, st) := body (lockStream st) in (r, unlockStream st).

Definition getRepNonStreamable (type_name : string) (address : N) : string :=
  type_name ++ " at 0x" ++ hexadecimal address.

Definition getRepStreamable (obj : Loggable) : string :=
  match obj with
  | Text s => s
  | Char c => String c ""
  | Integer z => decimal z
  | NonStreamable type_name address => getRepNonStreamable type_name address
  end.

(** Both overloads of [logObj]: they differ in how the representation is
    obtained and share the rest. *)
Definition logObj (log_with_label : bool) (obj : Loggable) (st : State) : State :=
  let representation :=
    match obj with
    | NonStreamable type_name address => getRepNonStreamable type_name address
    | _ => getRepStreamable obj
    end in
  if log_with_label then print representation st
  else printWithoutLabel representation st.

(** [logConcurrent(level, log_with_label, obj, args...)]; the fold expression
    [(logObj(false, args), ...)] runs left to right. *)
Definition logConcurrent (level : LogLevel.t) (log_with_label : bool)
    (obj : Loggable) (args : list Loggable) : State -> State :=
  LOCK_STREAM (fun st =>
    if LogLevel.ltb level (requiredLevel st) && LogLevel.neqb level LogLevel.fatal
    then st (* fatal messages cannot be blocked *)
    else
      let st := setLogLevel level st in
      let st := logObj log_with_label obj st in
      fold_left (fun st arg => logObj false arg st) args st).

End details.

(** ** Entry points of [Logger.h] *)

(** Each entry point calls [logConcurrent] (in the earlier revision through
    the forwarding function [_::log]).  [log_at] is the overload
    [log(LogLevel level, Args&&... args)]. *)
Definition log_at (level : LogLevel.t) (obj : Loggable) (args : list Loggable) :=
  details.logConcurrent level true obj args.

Definition debug (obj : Loggable) (args : list Loggable) :=
  details.logConcurrent LogLevel.debug true obj args.
Definition info (obj : Loggable) (args : list Loggable) :=
  details.logConcurrent LogLevel.info true obj args.
Definition warn (obj : Loggable) (args : list Loggable) :=
  details.logConcurrent LogLevel.warn true obj args.
Definition error (obj : Loggable) (args : list Loggable) :=
  details.logConcurrent LogLevel.error true obj args.
Definition critical (obj : Loggable) (args : list Loggable) :=
  details.logConcurrent LogLevel.critical true obj args.
Definition fatal (obj : Loggable) (args : list Loggable) :=
  details.logConcurrent LogLevel.fatal true obj args.

(** [log(Args&&... args)]: "Log a message regardless of the minimum required
    log level". *)
Definition log (obj : Loggable) (args : list Loggable) :=
  details.logConcurrent LogLevel.log false obj args.

(** All bytes written to one buffer, in order. *)
Definition chunks_on (b : streambuf) (st : State) : list string :=
  map snd (filter (fun e => bool_decide (fst e = b)) (written st)).
Definition text_on (b : streambuf) (st : State) : string :=
  String.concat "" (chunks_on b st).

(** ** Configuration *)

Definition setLogLabel (lv : LogLevel.t) (label : string) : State -> State :=
  details.LOCK_STREAM (fun st =>
    set_levelLabels (fun l => if bool_decide (l = lv) then label else levelLabels st l) st).

Definition setLogColor (lv : LogLevel.t) (color : string) : State -> State :=
  details.LOCK_STREAM (fun st =>
    set_cols (fun l => if bool_decide (l = lv) then color else cols st l) st).

Definition disableColor (st : State) : State := set_doColor false st.

Definition enableColor (st : State) : State := set_doColor true st.

Definition setMinimumLogLevel (lv : LogLevel.t) (st : State) : LogLevel.t * State :=
  let st := set_minLogLevel lv st in
  (minLogLevel st, st).

(** ** The log file *)

(** [s.empty()] *)
Definition empty (s : string) : bool :=
  match s with
  | EmptyString => true
  | String _ _ => false
  end.

(** What the operating system answers during one call of [initLogFile]: the
    [std::error_code] left by [fs::create_directories] ([None] when it is
    clear, otherwise its [message()]), and whether the [std::ofstream]
    constructed on the path is open afterwards. *)
Record filesystem : Set := {
  create_directories_ec : option string;
  ofstream_is_open : bool
}.

Definition dumpLogFile (st : State) : State :=
  match logFile st with
  | Some _ =>
      let st :=
        if bool_decide (outStream st = logFile_rdbuf)
        then set_outStream cout_rdbuf st
        else st in
      set_logFile None st
  | None => st
  end.

Definition initLogFile (directory filename : string) (fs : filesystem) (st : State) : State :=
  let ec := if negb (empty directory) then create_directories_ec fs else None in
  match ec with
  | Some message =>
      error (Text "failed to open log file '")
            [Text directory; Text "/"; Text filename; Text "': "; Text message] st
  | None =>
      let st := if bool_decide (logFile st <> None) then dumpLogFile st else st in
      let filepath := mk_path directory filename in
      let st := set_logFile (if ofstream_is_open fs then Some filepath else None) st in
      if bool_decide (logFile st <> None)
      then disableColor (set_outStream logFile_rdbuf st)
      else st
  end.

(** ** Timers *)

(** The duration types the library names (those with a [suffix_for]). *)
Inductive duration : Set := nanoseconds | microseconds | milliseconds | seconds | hours.

#[global] Instance duration_eq_dec : EqDecision duration.
Proof. solve_decision. Defined.

(** Length of one tick of the duration type, in nanoseconds. *)
Definition period (T : duration) : Z :=
  match T with
  | nanoseconds => 1
  | microseconds => 1000
  | milliseconds => 1000000
  | seconds => 1000000000
  | hours => 3600000000000
  end%Z.

(** [std::chrono::duration_cast<T>] of a count of nanoseconds: integer
    division truncating toward zero. *)
Definition duration_cast (T : duration) (ns : Z) : Z := Z.quot ns (period T).

(** [details::suffix_for<T>::value] *)
Definition suffix_for (T : duration) : string :=
  match T with
  | nanoseconds => "ns"
  | microseconds => "us"
  | milliseconds => "ms"
  | seconds => "s"
  | hours => "h"
  end.

(** [startTimer]; [now] is what [high_resolution_clock::now()] returns in
    this call. *)
Definition startTimer (label : string) (now : Z) : State -> string * State :=
  details.LOCK_STREAM_ret (fun st =>
    let tp := now in
    let str := label in
    (str, set_timePoints (<[str := tp]> (timePoints st)) st)).

(** The message of a timer miss: [error("Label ", label, " not found!\n")] *)
Definition label_not_found (label : string) : State -> State :=
  error (Text "Label ") [Text label; Text (" not found!" ++ newline)].

(** *** The revision with [using duration_t = std::chrono::milliseconds] *)
Module Fixed.

Definition setOutStream (os : streambuf) (st : State) : State :=
  set_outStream os st.

Definition endTimer (label : string) (now : Z) : State -> Z * State :=
  details.LOCK_STREAM_ret (fun st =>
    let endPoint := now in
    match timePoints st !! label with
    | Some startTime =>
        (duration_cast milliseconds (endPoint - startTime)%Z,
         set_timePoints (delete label (timePoints st)) st)
    | None => ((-1)%Z, label_not_found label st)
    end).

(** [getTimer] takes no lock in this revision. *)
Definition getTimer (label : string) (now : Z) (st : State) : Z * State :=
  let endPoint := now in
  match timePoints st !! label with
  | Some startTime => (duration_cast milliseconds (endPoint - startTime)%Z, st)
  | None => ((-1)%Z, label_not_found label st)
  end.

(** Defaults of the declaration: [prefix = ""], [suffix = "ms\n"]. *)
Definition logDuration (label _prefix suffix : string) (now : Z) (st : State) : State :=
  let '(dur, st) := endTimer label now st in
  if negb (dur =? -1)%Z then
    let prefix := if empty _prefix then label ++ ": " else _prefix in
    info (Text prefix) [Integer dur; Text suffix] st
  else st.

Definition logDurationPersistent (label _prefix suffix : string) (now : Z) (st : State) : State :=
  let '(dur, st) := getTimer label now st in
  if negb (dur =? -1)%Z then
    let prefix := if empty _prefix then label ++ ": " else _prefix in
    info (Text prefix) [Integer dur; Text suffix] st
  else st.

Definition default_suffix : string := "ms" ++ newline.

End Fixed.

(** *** The revision with duration templates *)
Module Templated.

Definition setOutStream (os : streambuf) : State -> State :=
  details.LOCK_STREAM (fun st => set_outStream os st).

Module details.

(** [std::chrono::nanoseconds details::endTimer(const std::string&)] *)
Definition endTimer (label : string) (now : Z) : State -> Z * State :=
  details.LOCK_STREAM_ret (fun st =>
    let endPoint := now in
    match timePoints st !! label with
    | Some startTime =>
        (duration_cast nanoseconds (endPoint - startTime)%Z,
         set_timePoints (delete label (timePoints st)) st)
    | None => ((-1)%Z, label_not_found label st)
    end).

Definition getTimer (label : string) (now : Z) : State -> Z * State :=
  details.LOCK_STREAM_ret (fun st =>
    let endPoint := now in
    match timePoints st !! label with
    | Some startTime => (duration_cast nanoseconds (endPoint - startTime)%Z, st)
    | None => ((-1)%Z, label_not_found label st)
    end).

End details.

(** [template <typename T = std::chrono::milliseconds> T endTimer(label)] *)
Definition endTimer (T : duration) (label : string) (now : Z) (st : State) : Z * State :=
  let '(dur, st) := details.endTimer label now st in
  (duration_cast T dur, st).

Definition getTimer (T : duration) (label : string) (now : Z) (st : State) : Z * State :=
  let '(dur, st) := details.getTimer label now st in
  (duration_cast T dur, st).

(** [logDuration<T>(level, label, prefix, suffix)]; the declaration's
    defaults are [prefix = ""] and [suffix = suffix_for<T>::value]. *)
Definition logDuration (T : duration) (level : LogLevel.t) (label prefix suffix : string)
    (now : Z) (st : State) : State :=
  let '(dur, st) := endTimer T label now st in
  if (dur =? -1)%Z then st
  else if empty prefix then
    log_at level (Text label) [Text ": "; Integer dur; Text suffix; Char (ascii_of_nat 10)] st
  else
    log_at level (Text prefix) [Integer dur; Text suffix; Char (ascii_of_nat 10)] st.

Definition logDurationPersistent (T : duration) (level : LogLevel.t)
    (label prefix suffix : string) (now : Z) (st : State) : State :=
  let '(dur, st) := getTimer T label now st in
  if (dur =? -1)%Z then st
  else if empty prefix then
    log_at level (Text label) [Text ": "; Integer dur; Text suffix; Char (ascii_of_nat 10)] st
  else
    log_at level (Text prefix) [Integer dur; Text suffix; Char (ascii_of_nat 10)] st.

(** The overloads without a level: [logDuration<T>(LogLevel::log, ...)]. *)
Definition logDuration_log (T : duration) (label prefix suffix : string) :=
  logDuration T LogLevel.log label prefix suffix.

Definition logDurationPersistent_log (T : duration) (label prefix suffix : string) :=
  logDurationPersistent T LogLevel.log label prefix suffix.

End Templated.

(** ** Vocabulary of the statements *)

(** The [write] calls of one operation, all going to buffer [b]. *)
Definition emit (b : streambuf) (chunks : list string) : list (streambuf * string) :=
  map (fun bytes => (b, bytes)) chunks.

(** One payload wrapped in the color of level [lv] when coloring is on. *)
Definition colored (st : State) (lv : LogLevel.t) (chunks : list string) : list string :=
  if doColor st then (cols st lv :: chunks ++ [reset_col])%list else chunks.

(** The text an argument is logged as. *)
Definition representation (obj : Loggable) : string :=
  match obj with
  | Text s => s
  | Char c => String c ""
  | Integer z => decimal z
  | NonStreamable type_name address => type_name ++ " at 0x" ++ hexadecimal address
  end.

(** The [[LABEL] ] decoration of level [lv]. *)
Definition decoration (st : State) (lv : LogLevel.t) : list string :=
  colored st lv ["["; levelLabels st lv; "] "].

(** The sequence of chunks making up one log line of level [lv]. *)
Definition line (st : State) (lv : LogLevel.t) (log_with_label : bool)
    (obj : Loggable) (args : list Loggable) : list string :=
  ((if log_with_label then decoration st lv else []) ++
   flat_map (fun arg => colored st lv [representation arg]) (obj :: args))%list.

(** Number of bytes in a sequence of chunks. *)
Definition bytes (chunks : list string) : nat :=
  fold_right (fun chunk n => String.length chunk + n) 0 chunks.

(** The gate of [logConcurrent], as a function of the level and the minimum. *)
Definition blocked (level minimum : LogLevel.t) : bool :=
  LogLevel.ltb level minimum && LogLevel.neqb level LogLevel.fatal.

(** The entry point that belongs to a level. *)
Definition entry_point (L : LogLevel.t) : Loggable -> list Loggable -> State -> State :=
  match L with
  | LogLevel.debug => debug
  | LogLevel.info => info
  | LogLevel.warn => warn
  | LogLevel.error => error
  | LogLevel.critical => critical
  | LogLevel.fatal => fatal
  | LogLevel.log => log
  end.

(** [st] after the chunks have been written to its current stream. *)
Definition appended (chunks : list string) (st : State) : State :=
  set_written (written st ++ emit (outStream st) chunks)%list st.

(** The state a passing call of level [lv] ends in when it starts in [st]:
    the line is appended, the current level is [lv], and the engaged flag of
    the lock is cleared. *)
Definition logged (lv : LogLevel.t) (log_with_label : bool) (obj : Loggable)
    (args : list Loggable) (st : State) : State :=
  set_mtx_engaged false
    (set_written (written st ++ emit (outStream st) (line st lv log_with_label obj args))%list
       (set_currentLevel lv st)).

(** The line of a timer miss. *)
Definition miss_line (st : State) (label : string) : list string :=
  line st LogLevel.error true (Text "Label ") [Text label; Text (" not found!" ++ newline)].

(** What a lookup [run] (one of [endTimer], [getTimer]) does on a label that
    is not in the registry: it returns -1, leaves the registry alone, and
    writes the miss line exactly once when the error level passes the gate,
    nothing otherwise. *)
Definition reports_miss (run : string -> Z -> State -> Z * State)
    (label : string) (now : Z) (st : State) : Prop :=
  fst (run label now st) = (-1)%Z /\
  timePoints (snd (run label now st)) = timePoints st /\
  (LogLevel.leb (minLogLevel st) LogLevel.error = true ->
     written (snd (run label now st)) =
       (written st ++ emit (outStream st) (miss_line st label))%list) /\
  (LogLevel.ltb LogLevel.error (minLogLevel st) = true ->
     written (snd (run label now st)) = written st).

(** What [startTimer] at instant [t0] followed by [endTimer] at [t1] and a
    second [endTimer] at [t2] do, for an [endTimer] of either revision. *)
Definition start_end_end (endTimer : string -> Z -> State -> Z * State)
    (label : string) (t0 t1 t2 : Z) (st : State) : Prop :=
  let started := snd (startTimer label t0 st) in
  let first := endTimer label t1 started in
  let second := endTimer label t2 (snd first) in
  (0 <= fst first)%Z /\
  timePoints (snd first) !! label = None /\
  timePoints (snd first) = delete label (timePoints st) /\
  fst second = (-1)%Z /\
  timePoints (snd second) = timePoints (snd first).

(** What a peek [getTimer] at instant [now] does on a running timer, and
    that an [endTimer] at [later] still finds it. *)
Definition peek_then_end (getTimer endTimer : string -> Z -> State -> Z * State)
    (label : string) (now later : Z) (st : State) : Prop :=
  let peeked := getTimer label now st in
  (0 <= fst peeked)%Z /\
  timePoints (snd peeked) = timePoints st /\
  is_Some (timePoints (snd peeked) !! label) /\
  (0 <= fst (endTimer label later (snd peeked)))%Z /\
  fst (endTimer label later (snd peeked)) <> (-1)%Z.

(** The chunks of the line [logDuration<T>] and [logDurationPersistent<T>]
    log for a duration [dur]: the decoration of [level], then the label and
    [": "] (or the caller's prefix), the value, the suffix and a newline. *)
Definition duration_line (st : State) (level : LogLevel.t)
    (label prefix suffix : string) (dur : Z) : list string :=
  (decoration st level ++
   flat_map (fun chunk => colored st level [chunk])
     ((if empty prefix then [label; ": "] else [prefix]) ++
      [decimal dur; suffix; newline]))%list.

(** The same for the millisecond revision, which logs through [info] and
    leaves the newline to the suffix. *)
Definition duration_line_ms (st : State) (label prefix suffix : string) (dur : Z)
    : list string :=
  (decoration st LogLevel.info ++
   flat_map (fun chunk => colored st LogLevel.info [chunk])
     [if empty prefix then (label ++ ": ")%string else prefix; decimal dur; suffix])%list.

(** What a duration logger [run] does on a running timer: the registry ends
    as [registry]; the line [chunks] is written exactly once when [level]
    passes the gate, and nothing is written when it does not. *)
Definition logs_duration (run : State -> State) (level : LogLevel.t)
    (chunks : list string) (registry : gmap string Z) (st : State) : Prop :=
  timePoints (run st) = registry /\
  (blocked level (minLogLevel st) = false ->
     written (run st) = (written st ++ emit (outStream st) chunks)%list) /\
  (blocked level (minLogLevel st) = true ->
     written (run st) = written st).

(** The line [initLogFile] logs when the directory cannot be created. *)
Definition open_failure_line (st : State) (directory filename message : string)
    : list string :=
  line st LogLevel.error true (Text "failed to open log file '")
    [Text directory; Text "/"; Text filename; Text "': "; Text message].

(** ** The rest of the interface *)

(** *** [details::type_name] of [Helper.h] *)

(** [std::string_view::remove_prefix(n)] and [remove_suffix(n)].  Their
    behaviour is undefined for [n > size()]; the model then leaves the empty
    view. *)
Definition remove_prefix (n : nat) (s : string) : string :=
  substring n (String.length s - n) s.

Definition remove_suffix (n : nat) (s : string) : string :=
  substring 0 (String.length s - n) s.

(** The compilers the preprocessor branches of [type_name] tell apart, in the
    order they are tested; [other_compiler] is the case where no branch is
    taken. *)
Inductive compiler : Set := clang | gnuc | msc_ver | other_compiler.

Definition type_name_prefix (c : compiler) : string :=
  match c with
  | clang => "std::string_view Logger::details::type_name() [T = "
  | gnuc => "constexpr std::string_view Logger::details::type_name() [with T = "
  | msc_ver =>
      "class std::basic_string_view<char,struct std::char_traits<char> > __cdecl Logger::details::type_name<"
  | other_compiler => ""
  end.

Definition type_name_suffix (c : compiler) : string :=
  match c with
  | clang => "]"
  | gnuc => "; std::string_view = std::basic_string_view<char>]"
  | msc_ver => ">(void) noexcept"
  | other_compiler => ""
  end.

(** [type_name<T>()]; [pretty_function] is the value the compiler gives
    [__PRETTY_FUNCTION__] (or [__FUNCSIG__]) in the instance for [T]. *)
Definition type_name (c : compiler) (pretty_function : string) : string :=
  let name := match c with other_compiler => "" | _ => pretty_function end in
  let prefix := type_name_prefix c in
  let suffix := type_name_suffix c in
  let name := remove_prefix (String.length prefix) name in
  let name := remove_suffix (String.length suffix) name in
  name.

(** *** Sequences of calls *)

(** The streams a caller can hand to [setOutStream].  [logFile] is a static
    variable of [Logger.cpp]; no caller can name it. *)
Inductive ostream : Set := std_cout | caller_stream (id : nat).

(** [os.rdbuf()] *)
Definition rdbuf (os : ostream) : streambuf :=
  match os with
  | std_cout => cout_rdbuf
  | caller_stream id => user_rdbuf id
  end.

(** The calls both revisions offer with the same code. *)
Inductive call : Type :=
| call_log_at (level : LogLevel.t) (obj : Loggable) (args : list Loggable)
| call_log (obj : Loggable) (args : list Loggable)
| call_setLogLabel (lv : LogLevel.t) (label : string)
| call_setLogColor (lv : LogLevel.t) (color : string)
| call_disableColor
| call_enableColor
| call_setMinimumLogLevel (lv : LogLevel.t)
| call_startTimer (label : string) (now : Z)
| call_initLogFile (directory filename : string) (fs : filesystem)
| call_dumpLogFile.

Definition run_call (c : call) (st : State) : State :=
  match c with
  | call_log_at level obj args => log_at level obj args st
  | call_log obj args => log obj args st
  | call_setLogLabel lv label => setLogLabel lv label st
  | call_setLogColor lv color => setLogColor lv color st
  | call_disableColor => disableColor st
  | call_enableColor => enableColor st
  | call_setMinimumLogLevel lv => snd (setMinimumLogLevel lv st)
  | call_startTimer label now => snd (startTimer label now st)
  | call_initLogFile directory filename fs => initLogFile directory filename fs st
  | call_dumpLogFile => dumpLogFile st
  end.

(** The calls of the millisecond revision. *)
Inductive fixed_call : Type :=
| fixed_common (c : call)
| fixed_setOutStream (os : ostream)
| fixed_endTimer (label : string) (now : Z)
| fixed_getTimer (label : string) (now : Z)
| fixed_logDuration (label prefix suffix : string) (now : Z)
| fixed_logDurationPersistent (label prefix suffix : string) (now : Z).

Definition run_fixed (c : fixed_call) (st : State) : State :=
  match c with
  | fixed_common c => run_call c st
  | fixed_setOutStream os => Fixed.setOutStream (rdbuf os) st
  | fixed_endTimer label now => snd (Fixed.endTimer label now st)
  | fixed_getTimer label now => snd (Fixed.getTimer label now st)
  | fixed_logDuration label prefix suffix now =>
      Fixed.logDuration label prefix suffix now st
  | fixed_logDurationPersistent label prefix suffix now =>
      Fixed.logDurationPersistent label prefix suffix now st
  end.

(** The calls of the templated revision. *)
Inductive templated_call : Type :=
| templated_common (c : call)
| templated_setOutStream (os : ostream)
| templated_endTimer (T : duration) (label : string) (now : Z)
| templated_getTimer (T : duration) (label : string) (now : Z)
| templated_logDuration (T : duration) (level : LogLevel.t)
    (label prefix suffix : string) (now : Z)
| templated_logDurationPersistent (T : duration) (level : LogLevel.t)
    (label prefix suffix : string) (now : Z).

Definition run_templated (c : templated_call) (st : State) : State :=
  match c with
  | templated_common c => run_call c st
  | templated_setOutStream os => Templated.setOutStream (rdbuf os) st
  | templated_endTimer T label now => snd (Templated.endTimer T label now st)
  | templated_getTimer T label now => snd (Templated.getTimer T label now st)
  | templated_logDuration T level label prefix suffix now =>
      Templated.logDuration T level label prefix suffix now st
  | templated_logDurationPersistent T level label prefix suffix now =>
      Templated.logDurationPersistent T level label prefix suffix now st
  end.

(** The state after a sequence of calls, first call first. *)
Definition run_fixed_calls (calls : list fixed_call) (st : State) : State :=
  fold_left (fun st c => run_fixed c st) calls st.

Definition run_templated_calls (calls : list templated_call) (st : State) : State :=
  fold_left (fun st c => run_templated c st) calls st.

(** The stream points at the file only while the file is open. *)
Definition target_is_open (st : State) : Prop :=
  outStream st = logFile_rdbuf -> logFile st <> None.

(** Whether a call looks up, under the stream lock, a label that is not in
    the registry.  In the millisecond revision [getTimer] and
    [logDurationPersistent] look up without the lock. *)
Definition fixed_locked_miss (c : fixed_call) (st : State) : bool :=
  match c with
  | fixed_endTimer label _ | fixed_logDuration label _ _ _ =>
      bool_decide (timePoints st !! label = None)
  | _ => false
  end.

Definition templated_locked_miss (c : templated_call) (st : State) : bool :=
  match c with
  | templated_endTimer _ label _ | templated_getTimer _ label _
  | templated_logDuration _ _ label _ _ _
  | templated_logDurationPersistent _ _ label _ _ _ =>
      bool_decide (timePoints st !! label = None)
  | _ => false
  end.

(** The chunks of a line when coloring is off. *)
Definition plain_line (st : State) (lv : LogLevel.t) (log_with_label : bool)
    (obj : Loggable) (args : list Loggable) : list string :=
  ((if log_with_label then ["["; levelLabels st lv; "] "] else []) ++
   map representation (obj :: args))%list.

(** What a call that neither retargets the stream nor touches the file does
    to the lock and the sink: the engaged flag stays clear if it was, the
    target and the file are as before, and the ownership count of the mutex
    has grown by [leak]. *)
Definition framed (leak : nat) (st st' : State) : Prop :=
  (mtx_engaged st = false -> mtx_engaged st' = false) /\
  outStream st' = outStream st /\
  logFile st' = logFile st /\
  mtx st' = mtx st + leak.

(** The state between two calls of one thread: the engaged flag is clear and
    the stream points at the file only if the file is open. *)
Definition between_calls (st : State) : Prop :=
  mtx_engaged st = false /\ target_is_open st.

(** ** The printing primitives *)

Lemma set_written_id st : set_written (written st) st = st.
Proof. by destruct st. Qed.

Lemma written_write bytes st :
  written (write bytes st) = (written st ++ [(outStream st, bytes)])%list.
Proof. reflexivity. Qed.

Lemma emit_app b xs ys : emit b (xs ++ ys)%list = (emit b xs ++ emit b ys)%list.
Proof. apply map_app. Qed.

Lemma write_appended bytes st : write bytes st = appended [bytes] st.
Proof. reflexivity. Qed.

Lemma appended_appended xs ys st :
  appended ys (appended xs st) = appended (xs ++ ys)%list st.
Proof.
  transitivity
    (set_written ((written st ++ emit (outStream st) xs) ++ emit (outStream st) ys)%list st);
    [reflexivity |].
  unfold appended. by rewrite emit_app, app_assoc.
Qed.

Lemma appended_nil st : appended [] st = st.
Proof. unfold appended, emit. cbn [map]. rewrite app_nil_r. apply set_written_id. Qed.

Lemma printWithoutLabel_spec msg st :
  details.printWithoutLabel msg st = appended (colored st (currentLevel st) [msg]) st.
Proof.
  unfold details.printWithoutLabel, colored, getLogColor.
  destruct (doColor st) eqn:Hcolor; cbv zeta.
  - rewrite !write_appended, !appended_appended. reflexivity.
  - apply write_appended.
Qed.

Lemma appended_decoration st :
  appended (decoration st (currentLevel st)) st =
  if doColor st then
    write reset_col
      (write "] " (write (getLogLabel st) (write "[" (write (getLogColor st) st))))
  else write "] " (write (getLogLabel st) (write "[" st)).
Proof.
  unfold decoration, colored, getLogColor, getLogLabel.
  destruct (doColor st) eqn:Hcolor.
  - rewrite !write_appended, !appended_appended. reflexivity.
  - rewrite !write_appended, !appended_appended. reflexivity.
Qed.

Lemma print_spec msg st :
  details.print msg st =
  appended (decoration st (currentLevel st) ++ colored st (currentLevel st) [msg])%list st.
Proof.
  unfold details.print. rewrite printWithoutLabel_spec. cbv zeta.
  rewrite <- appended_decoration, appended_appended. reflexivity.
Qed.

Lemma logObj_spec log_with_label obj st :
  details.logObj log_with_label obj st =
  appended ((if log_with_label then decoration st (currentLevel st) else []) ++
            colored st (currentLevel st) [representation obj])%list st.
Proof.
  unfold details.logObj.
  assert (Hrep : match obj with
                 | NonStreamable type_name address =>
                     details.getRepNonStreamable type_name address
                 | _ => details.getRepStreamable obj
                 end = representation obj) by (by destruct obj).
  rewrite Hrep. destruct log_with_label.
  - apply print_spec.
  - apply printWithoutLabel_spec.
Qed.

Lemma fold_logObj_spec args : forall st,
  fold_left (fun st arg => details.logObj false arg st) args st =
  appended (flat_map (fun arg => colored st (currentLevel st) [representation arg]) args) st.
Proof.
  induction args as [| arg args IH]; intros st; cbn [fold_left flat_map].
  - symmetry. apply appended_nil.
  - rewrite IH, logObj_spec, appended_appended. reflexivity.
Qed.

(** ** The filtering gate *)

Lemma logConcurrent_blocked level log_with_label obj args st :
  blocked level (minLogLevel st) = true ->
  details.logConcurrent level log_with_label obj args st = set_mtx_engaged false st.
Proof.
  intros Hgate.
  unfold details.logConcurrent, details.LOCK_STREAM, details.requiredLevel.
  change (minLogLevel (details.lockStream st)) with (minLogLevel st).
  fold (blocked level (minLogLevel st)). rewrite Hgate.
  reflexivity.
Qed.

Lemma logConcurrent_passes level log_with_label obj args st :
  blocked level (minLogLevel st) = false ->
  details.logConcurrent level log_with_label obj args st =
  logged level log_with_label obj args st.
Proof.
  intros Hgate.
  unfold details.logConcurrent, details.LOCK_STREAM, details.requiredLevel.
  change (minLogLevel (details.lockStream st)) with (minLogLevel st).
  fold (blocked level (minLogLevel st)). rewrite Hgate.
  rewrite fold_logObj_spec, logObj_spec, appended_appended, <- app_assoc.
  reflexivity.
Qed.

(** Case analysis on the gate of a [logConcurrent] call in the goal. *)
Ltac gate_cases level st :=
  let Hgate := fresh "Hgate" in
  destruct (blocked level (minLogLevel st)) eqn:Hgate;
  [ rewrite (logConcurrent_blocked level) by exact Hgate
  | rewrite (logConcurrent_passes level) by exact Hgate ].

Lemma logConcurrent_written level log_with_label obj args st :
  written (details.logConcurrent level log_with_label obj args st) =
  if blocked level (minLogLevel st) then written st
  else (written st ++ emit (outStream st) (line st level log_with_label obj args))%list.
Proof. gate_cases level st; reflexivity. Qed.

Lemma logConcurrent_timePoints level log_with_label obj args st :
  timePoints (details.logConcurrent level log_with_label obj args st) = timePoints st.
Proof. gate_cases level st; reflexivity. Qed.

Lemma logConcurrent_doColor level log_with_label obj args st :
  doColor (details.logConcurrent level log_with_label obj args st) = doColor st.
Proof. gate_cases level st; reflexivity. Qed.

Lemma logConcurrent_outStream level log_with_label obj args st :
  outStream (details.logConcurrent level log_with_label obj args st) = outStream st.
Proof. gate_cases level st; reflexivity. Qed.

Lemma logConcurrent_logFile level log_with_label obj args st :
  logFile (details.logConcurrent level log_with_label obj args st) = logFile st.
Proof. gate_cases level st; reflexivity. Qed.

Lemma logConcurrent_mtx level log_with_label obj args st :
  mtx (details.logConcurrent level log_with_label obj args st) = mtx st.
Proof. gate_cases level st; reflexivity. Qed.

Lemma logConcurrent_engaged level log_with_label obj args st :
  mtx_engaged (details.logConcurrent level log_with_label obj args st) = false.
Proof. gate_cases level st; reflexivity. Qed.

Lemma blocked_fatal minimum : blocked LogLevel.fatal minimum = false.
Proof. unfold blocked. by rewrite andb_false_r. Qed.

Lemma blocked_log minimum : blocked LogLevel.log minimum = false.
Proof. by destruct minimum. Qed.

Lemma blocked_below level minimum :
  LogLevel.ltb level minimum = true -> level <> LogLevel.fatal ->
  blocked level minimum = true.
Proof.
  intros Hlt Hne. unfold blocked, LogLevel.neqb. rewrite Hlt.
  by rewrite bool_decide_eq_false_2.
Qed.

Lemma blocked_at_least level minimum :
  LogLevel.leb minimum level = true -> blocked level minimum = false.
Proof. by destruct level, minimum. Qed.

Lemma entry_point_logConcurrent L obj args st :
  entry_point L obj args st =
  details.logConcurrent L (LogLevel.neqb L LogLevel.log) obj args st.
Proof. by destruct L. Qed.

Lemma bytes_app xs ys : bytes (xs ++ ys)%list = bytes xs + bytes ys.
Proof. induction xs as [| x xs IH]; simpl; [done | rewrite IH; lia]. Qed.

Lemma bytes_decoration st lv : 0 < bytes (decoration st lv).
Proof. unfold decoration, colored. destruct (doColor st); simpl; lia. Qed.

Lemma bytes_labelled_line st lv obj args : 0 < bytes (line st lv true obj args).
Proof.
  unfold line. rewrite bytes_app. pose proof (bytes_decoration st lv). lia.
Qed.

Lemma written_logged lv log_with_label obj args st :
  written (logged lv log_with_label obj args st) =
  (written st ++ emit (outStream st) (line st lv log_with_label obj args))%list.
Proof. reflexivity. Qed.

Lemma set_mtx_engaged_clear st : mtx_engaged st = false -> set_mtx_engaged false st = st.
Proof. destruct st; simpl; by intros ->. Qed.

(** C1, as the specification words it, fails at the fatal level: with the
    minimum set to [log], which lies strictly above [fatal], a call of
    [fatal] still writes its line. *)
Lemma fatal_passes_a_higher_minimum :
  LogLevel.ltb LogLevel.fatal
    (minLogLevel (snd (setMinimumLogLevel LogLevel.log initial))) = true /\
  written (fatal (Text "x") [] (snd (setMinimumLogLevel LogLevel.log initial)))
  <> written (snd (setMinimumLogLevel LogLevel.log initial)).
Proof. split; [reflexivity | vm_compute; discriminate]. Qed.

(** C1 (amended): for a level [L] among debug, info, warn, error, critical
    and fatal and a minimum level [M]:
    - if [M] is strictly above [L] and [L] is not fatal, the entry point of
      [L] writes nothing and changes nothing but the engaged flag of the lock,
      which it clears (so the state is unchanged when the call is made with
      the flag clear);
    - if [M] is at most [L], the entry point writes the line of its
      arguments, decoration first, which is at least one byte;
    - the unconditional entry point [log] writes the undecorated line of its
      arguments whatever [M] is. *)
Theorem leveled_entry_points_gate (L M : LogLevel.t) obj args st :
  L <> LogLevel.log ->
  minLogLevel st = M ->
  (LogLevel.ltb L M = true -> L <> LogLevel.fatal ->
     written (entry_point L obj args st) = written st /\
     entry_point L obj args st = set_mtx_engaged false st /\
     (mtx_engaged st = false -> entry_point L obj args st = st)) /\
  (LogLevel.leb M L = true ->
     written (entry_point L obj args st) =
       (written st ++ emit (outStream st) (line st L true obj args))%list /\
     0 < bytes (line st L true obj args)) /\
  written (log obj args st) =
    (written st ++ emit (outStream st) (line st LogLevel.log false obj args))%list.
Proof.
  intros HL HM. subst M. rewrite entry_point_logConcurrent.
  assert (Hlabel : LogLevel.neqb L LogLevel.log = true)
    by (unfold LogLevel.neqb; by rewrite bool_decide_eq_false_2).
  rewrite Hlabel. split; [| split].
  - intros Hlt Hfatal. rewrite logConcurrent_blocked by (by apply blocked_below).
    split; [reflexivity |]. split; [reflexivity |]. apply set_mtx_engaged_clear.
  - intros Hle. rewrite logConcurrent_passes by (by apply blocked_at_least).
    split; [apply written_logged | apply bytes_labelled_line].
  - unfold log. rewrite logConcurrent_passes by apply blocked_log. apply written_logged.
Qed.

Lemma leveled_entry_points_gate_witness :
  written (entry_point LogLevel.debug (Text "hidden") [] initial) = written initial /\
  entry_point LogLevel.debug (Text "hidden") [] initial = initial /\
  written (entry_point LogLevel.warn (Text "x=") [Integer 5] initial) =
    (written initial ++
     emit (outStream initial)
       (line initial LogLevel.warn true (Text "x=") [Integer 5]))%list /\
  written (log (Text "always") [] initial) =
    (written initial ++
     emit (outStream initial)
       (line initial LogLevel.log false (Text "always") []))%list.
Proof.
  destruct (leveled_entry_points_gate LogLevel.debug LogLevel.info
              (Text "hidden") [] initial) as [Hblocked _];
    [discriminate | reflexivity |].
  destruct (leveled_entry_points_gate LogLevel.warn LogLevel.info
              (Text "x=") [Integer 5] initial) as (_ & Hpass & _);
    [discriminate | reflexivity |].
  destruct (leveled_entry_points_gate LogLevel.warn LogLevel.info
              (Text "always") [] initial) as (_ & _ & Hlog);
    [discriminate | reflexivity |].
  destruct Hblocked as (Hw & _ & Hsame); [reflexivity | discriminate |].
  destruct Hpass as [Hline _]; [reflexivity |].
  split; [exact Hw |]. split; [exact (Hsame eq_refl) |].
  split; [exact Hline | exact Hlog].
Defined.

(** C2: whatever minimum level is configured, [log] included, a call of
    [fatal] writes its line (at least the decoration): the gate of
    [logConcurrent] lets the fatal level through. *)
Theorem fatal_cannot_be_blocked (M : LogLevel.t) obj args st :
  minLogLevel (snd (setMinimumLogLevel M st)) = M /\
  blocked LogLevel.fatal M = false /\
  written (fatal obj args (snd (setMinimumLogLevel M st))) =
    (written st ++
     emit (outStream st) (line st LogLevel.fatal true obj args))%list /\
  0 < bytes (line st LogLevel.fatal true obj args).
Proof.
  split; [reflexivity |]. split; [apply blocked_fatal |]. split.
  - unfold fatal. rewrite logConcurrent_passes by apply blocked_fatal.
    by destruct st.
  - apply bytes_labelled_line.
Qed.

(** ** The timer registry *)

Lemma LOCK_STREAM_ret_unfold {A} (body : State -> A * State) st :
  details.LOCK_STREAM_ret body st =
  (fst (body (details.lockStream st)),
   details.unlockStream (snd (body (details.lockStream st)))).
Proof. unfold details.LOCK_STREAM_ret. by destruct (body (details.lockStream st)). Qed.

Lemma unlockStream_lockStream st :
  details.unlockStream (details.lockStream st) = set_mtx_engaged false st.
Proof. by destruct st. Qed.

Lemma unlockStream_clear st :
  mtx_engaged st = false -> details.unlockStream st = st.
Proof. unfold details.unlockStream. by intros ->. Qed.

(** The state a lookup ends in on a miss: the nested [error] call has cleared
    the engaged flag, so the [unlockStream] of the lookup itself does nothing. *)
Lemma label_not_found_spec label st :
  label_not_found label st =
  if blocked LogLevel.error (minLogLevel st) then set_mtx_engaged false st
  else logged LogLevel.error true (Text "Label ")
         [Text label; Text (" not found!" ++ newline)] st.
Proof.
  unfold label_not_found, error. gate_cases LogLevel.error st; reflexivity.
Qed.

Lemma label_not_found_engaged label st :
  mtx_engaged (label_not_found label st) = false.
Proof. apply logConcurrent_engaged. Qed.

Lemma label_not_found_mtx label st :
  mtx (label_not_found label st) = mtx st.
Proof. apply logConcurrent_mtx. Qed.

Lemma label_not_found_timePoints label st :
  timePoints (label_not_found label st) = timePoints st.
Proof. apply logConcurrent_timePoints. Qed.

Lemma label_not_found_written label st :
  written (label_not_found label st) =
  if blocked LogLevel.error (minLogLevel st) then written st
  else (written st ++ emit (outStream st) (miss_line st label))%list.
Proof. apply logConcurrent_written. Qed.

Lemma blocked_error_above minimum :
  LogLevel.ltb LogLevel.error minimum = true -> blocked LogLevel.error minimum = true.
Proof. by destruct minimum. Qed.

Lemma duration_cast_nonneg T ns : (0 <= ns)%Z -> (0 <= duration_cast T ns)%Z.
Proof.
  intros Hns. unfold duration_cast. apply Z.quot_pos; [done |].
  destruct T; simpl; lia.
Qed.

Lemma Fixed_endTimer_found label now t0 st :
  timePoints st !! label = Some t0 ->
  Fixed.endTimer label now st =
  (duration_cast milliseconds (now - t0),
   set_mtx_engaged false (set_timePoints (delete label (timePoints st)) st)).
Proof.
  intros Hfound. unfold Fixed.endTimer. rewrite LOCK_STREAM_ret_unfold.
  change (timePoints (details.lockStream st)) with (timePoints st). rewrite Hfound.
  by destruct st.
Qed.

Lemma Fixed_endTimer_missing label now st :
  timePoints st !! label = None ->
  Fixed.endTimer label now st = ((-1)%Z, label_not_found label (details.lockStream st)).
Proof.
  intros Hmiss. unfold Fixed.endTimer. rewrite LOCK_STREAM_ret_unfold.
  change (timePoints (details.lockStream st)) with (timePoints st). rewrite Hmiss.
  cbn [fst snd]. by rewrite unlockStream_clear by apply label_not_found_engaged.
Qed.

Lemma Fixed_getTimer_found label now t0 st :
  timePoints st !! label = Some t0 ->
  Fixed.getTimer label now st = (duration_cast milliseconds (now - t0), st).
Proof. intros Hfound. unfold Fixed.getTimer. by rewrite Hfound. Qed.

Lemma Fixed_getTimer_missing label now st :
  timePoints st !! label = None ->
  Fixed.getTimer label now st = ((-1)%Z, label_not_found label st).
Proof. intros Hmiss. unfold Fixed.getTimer. by rewrite Hmiss. Qed.

Lemma details_endTimer_found label now t0 st :
  timePoints st !! label = Some t0 ->
  Templated.details.endTimer label now st =
  (duration_cast nanoseconds (now - t0),
   set_mtx_engaged false (set_timePoints (delete label (timePoints st)) st)).
Proof.
  intros Hfound. unfold Templated.details.endTimer. rewrite LOCK_STREAM_ret_unfold.
  change (timePoints (details.lockStream st)) with (timePoints st). rewrite Hfound.
  by destruct st.
Qed.

Lemma details_endTimer_missing label now st :
  timePoints st !! label = None ->
  Templated.details.endTimer label now st =
  ((-1)%Z, label_not_found label (details.lockStream st)).
Proof.
  intros Hmiss. unfold Templated.details.endTimer. rewrite LOCK_STREAM_ret_unfold.
  change (timePoints (details.lockStream st)) with (timePoints st). rewrite Hmiss.
  cbn [fst snd]. by rewrite unlockStream_clear by apply label_not_found_engaged.
Qed.

Lemma details_getTimer_found label now t0 st :
  timePoints st !! label = Some t0 ->
  Templated.details.getTimer label now st =
  (duration_cast nanoseconds (now - t0), set_mtx_engaged false st).
Proof.
  intros Hfound. unfold Templated.details.getTimer. rewrite LOCK_STREAM_ret_unfold.
  change (timePoints (details.lockStream st)) with (timePoints st). rewrite Hfound.
  by destruct st.
Qed.

Lemma details_getTimer_missing label now st :
  timePoints st !! label = None ->
  Templated.details.getTimer label now st =
  ((-1)%Z, label_not_found label (details.lockStream st)).
Proof.
  intros Hmiss. unfold Templated.details.getTimer. rewrite LOCK_STREAM_ret_unfold.
  change (timePoints (details.lockStream st)) with (timePoints st). rewrite Hmiss.
  cbn [fst snd]. by rewrite unlockStream_clear by apply label_not_found_engaged.
Qed.

Lemma startTimer_spec label now st :
  startTimer label now st =
  (label, set_mtx_engaged false (set_timePoints (<[label := now]> (timePoints st)) st)).
Proof. unfold startTimer. rewrite LOCK_STREAM_ret_unfold. by destruct st. Qed.

Lemma reports_miss_intro run label now st st' :
  run label now st = ((-1)%Z, label_not_found label st') ->
  st' = st \/ st' = details.lockStream st ->
  reports_miss run label now st.
Proof.
  intros Hrun Hst'. unfold reports_miss. rewrite Hrun. cbn [fst snd].
  rewrite label_not_found_timePoints, label_not_found_written.
  assert (Hsame : timePoints st' = timePoints st /\ minLogLevel st' = minLogLevel st /\
                  written st' = written st /\ outStream st' = outStream st /\
                  miss_line st' label = miss_line st label)
    by (destruct Hst' as [-> | ->]; repeat apply conj; reflexivity).
  destruct Hsame as (-> & -> & -> & -> & ->).
  split; [reflexivity |]. split; [reflexivity |]. split.
  - intros Hle. by rewrite blocked_at_least.
  - intros Hlt. by rewrite blocked_error_above.
Qed.

Lemma miss_line_text st label :
  doColor st = false ->
  String.concat "" (miss_line st label) =
  "[" ++ levelLabels st LogLevel.error ++ "] Label " ++ label ++ " not found!" ++ newline.
Proof.
  intros Hplain. unfold miss_line, line, decoration, colored. rewrite Hplain.
  reflexivity.
Qed.

(** C3, as worded, fails when the minimum level lies above error: the miss
    line goes through the same gate as every error message and is dropped,
    while -1 is still returned. *)
Lemma timer_miss_can_be_silent :
  timePoints (snd (setMinimumLogLevel LogLevel.critical initial)) !! "t" = None /\
  fst (Fixed.endTimer "t" 0 (snd (setMinimumLogLevel LogLevel.critical initial))) = (-1)%Z /\
  written (snd (Fixed.endTimer "t" 0 (snd (setMinimumLogLevel LogLevel.critical initial))))
  = written (snd (setMinimumLogLevel LogLevel.critical initial)) /\
  written (snd (Fixed.getTimer "t" 0 (snd (setMinimumLogLevel LogLevel.critical initial))))
  = written (snd (setMinimumLogLevel LogLevel.critical initial)).
Proof. repeat apply conj; reflexivity. Qed.

(** C3 (amended): for a label that is not in the registry, [endTimer] and
    [getTimer] (of the millisecond revision, and [details::endTimer] and
    [details::getTimer] of the templated one) return -1 and leave the
    registry alone; when the minimum level is at most error they write
    exactly one error line, [[ERROR] Label <label> not found!] followed by a
    newline, and when the minimum level is above error they write nothing. *)
Theorem timer_miss_is_reported (label : string) (now : Z) st :
  timePoints st !! label = None ->
  reports_miss Fixed.endTimer label now st /\
  reports_miss Fixed.getTimer label now st /\
  reports_miss Templated.details.endTimer label now st /\
  reports_miss Templated.details.getTimer label now st /\
  (doColor st = false ->
   String.concat "" (miss_line st label) =
   "[" ++ levelLabels st LogLevel.error ++ "] Label " ++ label ++ " not found!" ++ newline).
Proof.
  intros Hmiss. split; [| split; [| split; [| split]]].
  - eapply reports_miss_intro; [by apply Fixed_endTimer_missing | by right].
  - eapply reports_miss_intro; [by apply Fixed_getTimer_missing | by left].
  - eapply reports_miss_intro; [by apply details_endTimer_missing | by right].
  - eapply reports_miss_intro; [by apply details_getTimer_missing | by right].
  - apply miss_line_text.
Qed.

Lemma timer_miss_is_reported_witness :
  fst (Fixed.endTimer "t" 0 (disableColor initial)) = (-1)%Z /\
  text_on cout_rdbuf (snd (Fixed.endTimer "t" 0 (disableColor initial))) =
  "[ERROR] Label t not found!" ++ newline.
Proof.
  destruct (timer_miss_is_reported "t" 0 (disableColor initial)) as [Hend _];
    [reflexivity |].
  destruct Hend as (Hret & _ & Hline & _).
  split; [exact Hret |].
  unfold text_on, chunks_on. rewrite Hline by reflexivity. reflexivity.
Defined.

(** ** Starting, consuming and peeking *)

Lemma start_end_end_Fixed label t0 t1 t2 st :
  (t0 <= t1)%Z -> start_end_end Fixed.endTimer label t0 t1 t2 st.
Proof.
  intros Hclock. unfold start_end_end. rewrite startTimer_spec. cbn [snd].
  rewrite (Fixed_endTimer_found label t1 t0) by apply lookup_insert_eq.
  cbn [fst snd timePoints set_mtx_engaged set_timePoints].
  assert (Hgone : delete label (<[label := t0]> (timePoints st)) !! label = None)
    by apply lookup_delete_eq.
  rewrite Fixed_endTimer_missing by exact Hgone.
  cbn [fst snd]. rewrite label_not_found_timePoints.
  split; [apply duration_cast_nonneg; lia |].
  split; [exact Hgone |].
  split; [apply delete_insert_eq |].
  split; reflexivity.
Qed.

Lemma start_end_end_details label t0 t1 t2 st :
  (t0 <= t1)%Z -> start_end_end Templated.details.endTimer label t0 t1 t2 st.
Proof.
  intros Hclock. unfold start_end_end. rewrite startTimer_spec. cbn [snd].
  rewrite (details_endTimer_found label t1 t0) by apply lookup_insert_eq.
  cbn [fst snd timePoints set_mtx_engaged set_timePoints].
  assert (Hgone : delete label (<[label := t0]> (timePoints st)) !! label = None)
    by apply lookup_delete_eq.
  rewrite details_endTimer_missing by exact Hgone.
  cbn [fst snd]. rewrite label_not_found_timePoints.
  split; [apply duration_cast_nonneg; lia |].
  split; [exact Hgone |].
  split; [apply delete_insert_eq |].
  split; reflexivity.
Qed.

(** C4: for every label and every prior state, when the clock does not run
    backwards between the two calls, [startTimer] followed by [endTimer]
    returns a duration of at least 0 and removes the label from the registry
    (the rest of the registry is as before the start); a second [endTimer]
    then misses: it returns -1 and finds nothing to remove. *)
Theorem start_then_end_consumes (label : string) (t0 t1 t2 : Z) st :
  (t0 <= t1)%Z ->
  fst (startTimer label t0 st) = label /\
  start_end_end Fixed.endTimer label t0 t1 t2 st /\
  start_end_end Templated.details.endTimer label t0 t1 t2 st.
Proof.
  intros Hclock. split; [by rewrite startTimer_spec |].
  split; [by apply start_end_end_Fixed | by apply start_end_end_details].
Qed.

Lemma start_then_end_consumes_witness :
  fst (Fixed.endTimer "t" 10000100 (snd (startTimer "t" 100 initial))) = 10%Z /\
  start_end_end Fixed.endTimer "t" 100 10000100 10000200 initial.
Proof.
  split; [reflexivity |].
  destruct (start_then_end_consumes "t" 100 10000100 10000200 initial)
    as (_ & Hfixed & _); [lia | exact Hfixed].
Defined.

Lemma duration_cast_nonneg_not_sentinel T ns :
  (0 <= ns)%Z -> duration_cast T ns <> (-1)%Z.
Proof. intros Hns. pose proof (duration_cast_nonneg T ns Hns). lia. Qed.

Lemma Templated_getTimer_found T label now t0 st :
  timePoints st !! label = Some t0 ->
  Templated.getTimer T label now st =
  (duration_cast T (duration_cast nanoseconds (now - t0)), set_mtx_engaged false st).
Proof.
  intros Hfound. unfold Templated.getTimer.
  by rewrite (details_getTimer_found label now t0).
Qed.

Lemma Templated_endTimer_found T label now t0 st :
  timePoints st !! label = Some t0 ->
  Templated.endTimer T label now st =
  (duration_cast T (duration_cast nanoseconds (now - t0)),
   set_mtx_engaged false (set_timePoints (delete label (timePoints st)) st)).
Proof.
  intros Hfound. unfold Templated.endTimer.
  by rewrite (details_endTimer_found label now t0).
Qed.

(** C5: for a label present in the registry (started at [t0], the clock not
    running backwards), [getTimer] returns a duration of at least 0 and
    leaves the registry unchanged, so the label is still present and an
    [endTimer] after it succeeds.  In the millisecond revision the whole
    state is unchanged. *)
Theorem peek_keeps_the_timer (label : string) (t0 now later : Z) (T : duration) st :
  timePoints st !! label = Some t0 ->
  (t0 <= now)%Z ->
  (t0 <= later)%Z ->
  peek_then_end Fixed.getTimer Fixed.endTimer label now later st /\
  snd (Fixed.getTimer label now st) = st /\
  peek_then_end Templated.details.getTimer Templated.details.endTimer label now later st /\
  peek_then_end (Templated.getTimer T) (Templated.endTimer T) label now later st.
Proof.
  intros Hfound Hnow Hlater.
  assert (Hns : forall t, (t0 <= t)%Z -> (0 <= duration_cast nanoseconds (t - t0))%Z)
    by (intros t Ht; apply duration_cast_nonneg; lia).
  split; [| split; [| split]].
  - unfold peek_then_end. rewrite (Fixed_getTimer_found label now t0) by done.
    cbn [fst snd]. rewrite (Fixed_endTimer_found label later t0) by done. cbn [fst].
    split; [apply duration_cast_nonneg; lia |].
    split; [reflexivity |]. split; [exists t0; exact Hfound |].
    split; [apply duration_cast_nonneg; lia |].
    apply duration_cast_nonneg_not_sentinel; lia.
  - by rewrite (Fixed_getTimer_found label now t0).
  - unfold peek_then_end. rewrite (details_getTimer_found label now t0) by done.
    cbn [fst snd]. rewrite (details_endTimer_found label later t0) by done. cbn [fst].
    split; [by apply Hns |].
    split; [reflexivity |]. split; [exists t0; exact Hfound |].
    split; [by apply Hns |].
    apply duration_cast_nonneg_not_sentinel; lia.
  - unfold peek_then_end. rewrite (Templated_getTimer_found T label now t0) by done.
    cbn [fst snd]. rewrite (Templated_endTimer_found T label later t0) by done. cbn [fst].
    split; [by apply duration_cast_nonneg, Hns |].
    split; [reflexivity |]. split; [exists t0; exact Hfound |].
    split; [by apply duration_cast_nonneg, Hns |].
    by apply duration_cast_nonneg_not_sentinel, Hns.
Qed.

Lemma peek_keeps_the_timer_witness :
  fst (Fixed.getTimer "t" 5000100 (snd (startTimer "t" 100 initial))) = 5%Z /\
  peek_then_end Fixed.getTimer Fixed.endTimer "t" 5000100 9000100
    (snd (startTimer "t" 100 initial)).
Proof.
  split; [reflexivity |].
  destruct (peek_keeps_the_timer "t" 100 5000100 9000100 milliseconds
              (snd (startTimer "t" 100 initial))) as [Hfixed _];
    [reflexivity | lia | lia | exact Hfixed].
Defined.

(** ** The stream lock *)

Lemma startTimer_mtx label now st : mtx (snd (startTimer label now st)) = mtx st.
Proof. by rewrite startTimer_spec. Qed.

Lemma endTimer_found_mtx label now t0 st :
  timePoints st !! label = Some t0 ->
  mtx (snd (Fixed.endTimer label now st)) = mtx st /\
  mtx (snd (Templated.details.endTimer label now st)) = mtx st.
Proof.
  intros Hfound.
  by rewrite (Fixed_endTimer_found label now t0), (details_endTimer_found label now t0).
Qed.

(** On a miss the nested [error] call clears [mtx_engaged] when it returns,
    and the [unlockStream] of the lookup then skips [mtx.unlock()]: the
    ownership count ends one higher than it started. *)
Lemma timer_miss_mtx label now st :
  timePoints st !! label = None ->
  mtx (snd (Fixed.endTimer label now st)) = S (mtx st) /\
  mtx (snd (Templated.details.endTimer label now st)) = S (mtx st) /\
  mtx (snd (Templated.details.getTimer label now st)) = S (mtx st).
Proof.
  intros Hmiss.
  rewrite Fixed_endTimer_missing, details_endTimer_missing, details_getTimer_missing
    by done.
  cbn [snd]. by rewrite !label_not_found_mtx.
Qed.

(** C7 fails on the code: from the initial state (mutex free), [endTimer] on
    a label that was never started returns with the mutex still owned once
    by the caller; so do [details::endTimer] and [details::getTimer] of the
    templated revision.  The gate's early return and a found timer release
    it ([logConcurrent_mtx], [endTimer_found_mtx]). *)
Theorem timer_miss_leaves_mutex_locked :
  mtx initial = 0 /\
  mtx_engaged initial = false /\
  mtx (snd (Fixed.endTimer "t" 0 initial)) = 1 /\
  mtx (snd (Templated.details.endTimer "t" 0 initial)) = 1 /\
  mtx (snd (Templated.details.getTimer "t" 0 initial)) = 1 /\
  mtx (debug (Text "filtered") [] initial) = 0.
Proof. repeat apply conj; reflexivity. Qed.

(** ** Logging a duration *)

Lemma logs_duration_intro run level obj args chunks st st' :
  run st = details.logConcurrent level true obj args st' ->
  minLogLevel st' = minLogLevel st ->
  written st' = written st ->
  outStream st' = outStream st ->
  line st' level true obj args = chunks ->
  logs_duration run level chunks (timePoints st') st.
Proof.
  intros Hrun Hmin Hwr Hos Hline. unfold logs_duration.
  rewrite Hrun, logConcurrent_timePoints, logConcurrent_written, Hmin, Hwr, Hos, Hline.
  split; [reflexivity |]. split; by intros ->.
Qed.

Lemma not_sentinel_eqb d : (0 <= d)%Z -> (d =? -1)%Z = false.
Proof. intros Hd. apply Z.eqb_neq. lia. Qed.

Lemma duration_cast_nanoseconds ns : duration_cast nanoseconds ns = ns.
Proof. unfold duration_cast. apply Z.quot_1_r. Qed.

Lemma Templated_logDuration_run T level label prefix suffix t0 now st :
  timePoints st !! label = Some t0 ->
  (t0 <= now)%Z ->
  Templated.logDuration T level label prefix suffix now st =
  (if empty prefix then
     details.logConcurrent level true (Text label)
       [Text ": "; Integer (duration_cast T (now - t0)); Text suffix;
        Char (ascii_of_nat 10)]
   else
     details.logConcurrent level true (Text prefix)
       [Integer (duration_cast T (now - t0)); Text suffix; Char (ascii_of_nat 10)])
    (set_mtx_engaged false (set_timePoints (delete label (timePoints st)) st)).
Proof.
  intros Hfound Hclock. unfold Templated.logDuration.
  rewrite (Templated_endTimer_found T label now t0) by done.
  rewrite duration_cast_nanoseconds.
  rewrite not_sentinel_eqb by (apply duration_cast_nonneg; lia).
  unfold log_at. by destruct (empty prefix).
Qed.

Lemma Templated_logDurationPersistent_run T level label prefix suffix t0 now st :
  timePoints st !! label = Some t0 ->
  (t0 <= now)%Z ->
  Templated.logDurationPersistent T level label prefix suffix now st =
  (if empty prefix then
     details.logConcurrent level true (Text label)
       [Text ": "; Integer (duration_cast T (now - t0)); Text suffix;
        Char (ascii_of_nat 10)]
   else
     details.logConcurrent level true (Text prefix)
       [Integer (duration_cast T (now - t0)); Text suffix; Char (ascii_of_nat 10)])
    (set_mtx_engaged false st).
Proof.
  intros Hfound Hclock. unfold Templated.logDurationPersistent.
  rewrite (Templated_getTimer_found T label now t0) by done.
  rewrite duration_cast_nanoseconds.
  rewrite not_sentinel_eqb by (apply duration_cast_nonneg; lia).
  unfold log_at. by destruct (empty prefix).
Qed.

Lemma Fixed_logDuration_run label prefix suffix t0 now st :
  timePoints st !! label = Some t0 ->
  (t0 <= now)%Z ->
  Fixed.logDuration label prefix suffix now st =
  details.logConcurrent LogLevel.info true
    (Text (if empty prefix then label ++ ": " else prefix))
    [Integer (duration_cast milliseconds (now - t0)); Text suffix]
    (set_mtx_engaged false (set_timePoints (delete label (timePoints st)) st)).
Proof.
  intros Hfound Hclock. unfold Fixed.logDuration.
  rewrite (Fixed_endTimer_found label now t0) by done.
  by rewrite not_sentinel_eqb by (apply duration_cast_nonneg; lia).
Qed.

Lemma Fixed_logDurationPersistent_run label prefix suffix t0 now st :
  timePoints st !! label = Some t0 ->
  (t0 <= now)%Z ->
  Fixed.logDurationPersistent label prefix suffix now st =
  details.logConcurrent LogLevel.info true
    (Text (if empty prefix then label ++ ": " else prefix))
    [Integer (duration_cast milliseconds (now - t0)); Text suffix] st.
Proof.
  intros Hfound Hclock. unfold Fixed.logDurationPersistent.
  rewrite (Fixed_getTimer_found label now t0) by done.
  by rewrite not_sentinel_eqb by (apply duration_cast_nonneg; lia).
Qed.

Lemma Templated_logDuration_found T level label prefix suffix t0 now st :
  timePoints st !! label = Some t0 ->
  (t0 <= now)%Z ->
  logs_duration (Templated.logDuration T level label prefix suffix now) level
    (duration_line st level label prefix suffix (duration_cast T (now - t0)))
    (delete label (timePoints st)) st.
Proof.
  intros Hfound Hclock.
  pose proof (Templated_logDuration_run T level label prefix suffix t0 now st
                Hfound Hclock) as Hrun.
  unfold duration_line. destruct (empty prefix).
  - exact (logs_duration_intro _ _ _ _ _ st _ Hrun eq_refl eq_refl eq_refl eq_refl).
  - exact (logs_duration_intro _ _ _ _ _ st _ Hrun eq_refl eq_refl eq_refl eq_refl).
Qed.

Lemma Templated_logDurationPersistent_found T level label prefix suffix t0 now st :
  timePoints st !! label = Some t0 ->
  (t0 <= now)%Z ->
  logs_duration (Templated.logDurationPersistent T level label prefix suffix now) level
    (duration_line st level label prefix suffix (duration_cast T (now - t0)))
    (timePoints st) st.
Proof.
  intros Hfound Hclock.
  pose proof (Templated_logDurationPersistent_run T level label prefix suffix t0 now st
                Hfound Hclock) as Hrun.
  unfold duration_line. destruct (empty prefix).
  - exact (logs_duration_intro _ _ _ _ _ st _ Hrun eq_refl eq_refl eq_refl eq_refl).
  - exact (logs_duration_intro _ _ _ _ _ st _ Hrun eq_refl eq_refl eq_refl eq_refl).
Qed.

Lemma Fixed_logDuration_found label prefix suffix t0 now st :
  timePoints st !! label = Some t0 ->
  (t0 <= now)%Z ->
  logs_duration (Fixed.logDuration label prefix suffix now) LogLevel.info
    (duration_line_ms st label prefix suffix (duration_cast milliseconds (now - t0)))
    (delete label (timePoints st)) st.
Proof.
  intros Hfound Hclock.
  exact (logs_duration_intro _ _ _ _ _ st _
           (Fixed_logDuration_run label prefix suffix t0 now st Hfound Hclock)
           eq_refl eq_refl eq_refl eq_refl).
Qed.

Lemma Fixed_logDurationPersistent_found label prefix suffix t0 now st :
  timePoints st !! label = Some t0 ->
  (t0 <= now)%Z ->
  logs_duration (Fixed.logDurationPersistent label prefix suffix now) LogLevel.info
    (duration_line_ms st label prefix suffix (duration_cast milliseconds (now - t0)))
    (timePoints st) st.
Proof.
  intros Hfound Hclock.
  exact (logs_duration_intro _ _ _ _ _ st _
           (Fixed_logDurationPersistent_run label prefix suffix t0 now st Hfound Hclock)
           eq_refl eq_refl eq_refl eq_refl).
Qed.

Lemma append_assoc (a b c : string) : (a ++ b) ++ c = a ++ b ++ c.
Proof.
  induction a as [| ch a IH]; [reflexivity |].
  change (String ch ((a ++ b) ++ c) = String ch (a ++ b ++ c)). by rewrite IH.
Qed.

Lemma duration_line_text st level label prefix suffix dur :
  doColor st = false ->
  String.concat "" (duration_line st level label prefix suffix dur) =
  "[" ++ levelLabels st level ++ "] " ++
  (if empty prefix then label ++ ": " else prefix) ++ decimal dur ++ suffix ++ newline.
Proof.
  intros Hplain. unfold duration_line, decoration, colored. rewrite Hplain.
  destruct (empty prefix); [| reflexivity].
  rewrite (append_assoc label). reflexivity.
Qed.

Lemma Templated_logDuration_sentinel T level label prefix suffix now st :
  fst (Templated.endTimer T label now st) = (-1)%Z ->
  Templated.logDuration T level label prefix suffix now st =
  snd (Templated.endTimer T label now st).
Proof.
  unfold Templated.logDuration. destruct (Templated.endTimer T label now st) as [dur st'].
  cbn [fst snd]. by intros ->.
Qed.

Lemma Templated_logDurationPersistent_sentinel T level label prefix suffix now st :
  fst (Templated.getTimer T label now st) = (-1)%Z ->
  Templated.logDurationPersistent T level label prefix suffix now st =
  snd (Templated.getTimer T label now st).
Proof.
  unfold Templated.logDurationPersistent.
  destruct (Templated.getTimer T label now st) as [dur st'].
  cbn [fst snd]. by intros ->.
Qed.

Lemma Fixed_logDuration_sentinel label prefix suffix now st :
  fst (Fixed.endTimer label now st) = (-1)%Z ->
  Fixed.logDuration label prefix suffix now st = snd (Fixed.endTimer label now st).
Proof.
  unfold Fixed.logDuration. destruct (Fixed.endTimer label now st) as [dur st'].
  cbn [fst snd]. by intros ->.
Qed.

Lemma Fixed_logDurationPersistent_sentinel label prefix suffix now st :
  fst (Fixed.getTimer label now st) = (-1)%Z ->
  Fixed.logDurationPersistent label prefix suffix now st =
  snd (Fixed.getTimer label now st).
Proof.
  unfold Fixed.logDurationPersistent. destruct (Fixed.getTimer label now st) as [dur st'].
  cbn [fst snd]. by intros ->.
Qed.

(** C6, as worded, fails when the level of the duration line does not pass
    the gate: on a running timer, [logDuration<milliseconds>] at the debug
    level with the default minimum (info) consumes the timer and writes
    nothing; the millisecond revision always logs at info, which a minimum of
    warn filters. *)
Lemma duration_line_can_be_filtered :
  timePoints (snd (startTimer "t" 0 initial)) !! "t" = Some 0%Z /\
  written (Templated.logDuration milliseconds LogLevel.debug "t" "" "ms" 5000000
             (snd (startTimer "t" 0 initial)))
  = written (snd (startTimer "t" 0 initial)) /\
  written (Fixed.logDuration "t" "" Fixed.default_suffix 5000000
             (snd (setMinimumLogLevel LogLevel.warn (snd (startTimer "t" 0 initial)))))
  = written (snd (setMinimumLogLevel LogLevel.warn (snd (startTimer "t" 0 initial)))).
Proof. repeat apply conj; reflexivity. Qed.

(** C6 (amended): for a running timer [label] (the clock not running
    backwards), [logDuration] looks the timer up with [endTimer], which
    removes it, and [logDurationPersistent] with [getTimer], which keeps it.
    When the level of the line passes the minimum-level gate, each writes
    exactly one line: the decoration of the level, then the prefix ([label]
    and [": "] when the prefix is empty), the value and the suffix (and a
    newline in the templated revision); when the level does not pass, nothing
    is written.  In the templated revision the level is the caller's and
    defaults to [log], which always passes; the millisecond revision logs at
    info.  Whenever the lookup returns -1, nothing is logged after it. *)
Theorem duration_is_logged_through_the_gate
    (T : duration) (level : LogLevel.t) (label prefix suffix : string) (t0 now : Z) st :
  timePoints st !! label = Some t0 ->
  (t0 <= now)%Z ->
  logs_duration (Templated.logDuration T level label prefix suffix now) level
    (duration_line st level label prefix suffix (duration_cast T (now - t0)))
    (delete label (timePoints st)) st /\
  logs_duration (Templated.logDurationPersistent T level label prefix suffix now) level
    (duration_line st level label prefix suffix (duration_cast T (now - t0)))
    (timePoints st) st /\
  written (Templated.logDuration_log T label prefix suffix now st) =
    (written st ++ emit (outStream st)
       (duration_line st LogLevel.log label prefix suffix (duration_cast T (now - t0))))%list /\
  written (Templated.logDurationPersistent_log T label prefix suffix now st) =
    (written st ++ emit (outStream st)
       (duration_line st LogLevel.log label prefix suffix (duration_cast T (now - t0))))%list /\
  logs_duration (Fixed.logDuration label prefix suffix now) LogLevel.info
    (duration_line_ms st label prefix suffix (duration_cast milliseconds (now - t0)))
    (delete label (timePoints st)) st /\
  logs_duration (Fixed.logDurationPersistent label prefix suffix now) LogLevel.info
    (duration_line_ms st label prefix suffix (duration_cast milliseconds (now - t0)))
    (timePoints st) st /\
  (doColor st = false ->
   String.concat "" (duration_line st level label prefix suffix (duration_cast T (now - t0))) =
   "[" ++ levelLabels st level ++ "] " ++
   (if empty prefix then label ++ ": " else prefix) ++
   decimal (duration_cast T (now - t0)) ++ suffix ++ newline) /\
  (forall label' now' st',
     (fst (Templated.endTimer T label' now' st') = (-1)%Z ->
      Templated.logDuration T level label' prefix suffix now' st' =
      snd (Templated.endTimer T label' now' st')) /\
     (fst (Templated.getTimer T label' now' st') = (-1)%Z ->
      Templated.logDurationPersistent T level label' prefix suffix now' st' =
      snd (Templated.getTimer T label' now' st')) /\
     (fst (Fixed.endTimer label' now' st') = (-1)%Z ->
      Fixed.logDuration label' prefix suffix now' st' =
      snd (Fixed.endTimer label' now' st')) /\
     (fst (Fixed.getTimer label' now' st') = (-1)%Z ->
      Fixed.logDurationPersistent label' prefix suffix now' st' =
      snd (Fixed.getTimer label' now' st'))).
Proof.
  intros Hfound Hclock.
  split; [| split; [| split; [| split; [| split; [| split; [| split]]]]]].
  - by apply Templated_logDuration_found.
  - by apply Templated_logDurationPersistent_found.
  - apply (Templated_logDuration_found T LogLevel.log label prefix suffix t0 now st);
      [done | done | apply blocked_log].
  - apply (Templated_logDurationPersistent_found T LogLevel.log label prefix suffix t0 now st);
      [done | done | apply blocked_log].
  - by apply Fixed_logDuration_found.
  - by apply Fixed_logDurationPersistent_found.
  - apply duration_line_text.
  - intros label' now' st'. split; [| split; [| split]].
    + apply Templated_logDuration_sentinel.
    + apply Templated_logDurationPersistent_sentinel.
    + apply Fixed_logDuration_sentinel.
    + apply Fixed_logDurationPersistent_sentinel.
Qed.

Lemma duration_is_logged_through_the_gate_witness :
  text_on cout_rdbuf
    (Templated.logDuration_log milliseconds "t" "" "ms" 5000100
       (snd (startTimer "t" 100 (disableColor initial))))
  = "[OUT] t: 5ms" ++ newline.
Proof.
  destruct (duration_is_logged_through_the_gate milliseconds LogLevel.log "t" "" "ms"
              100 5000100 (snd (startTimer "t" 100 (disableColor initial))))
    as (_ & _ & Hline & _); [reflexivity | lia |].
  unfold text_on, chunks_on. rewrite Hline. reflexivity.
Defined.

(** ** The log file *)

(** C8, as worded, fails when the minimum level lies above error: the
    failure to create the directory is then not reported at all. *)
Lemma directory_failure_can_be_silent :
  written (initLogFile "/proc/logs" "Log.log"
             {| create_directories_ec := Some "Permission denied";
                ofstream_is_open := false |}
             (snd (setMinimumLogLevel LogLevel.critical initial)))
  = written (snd (setMinimumLogLevel LogLevel.critical initial)).
Proof. reflexivity. Qed.

(** C8 (amended): when [initLogFile] is given a non-empty directory that
    cannot be created, it returns without changing the stream [outStream]
    writes to, the open-file state or the color flag; when the minimum level
    is at most error it writes exactly one error line, which contains the
    directory, the file name and the message of the error code, and when the
    minimum level is above error it writes nothing. *)
Theorem initLogFile_directory_failure (directory filename message : string)
    (fs : filesystem) st :
  empty directory = false ->
  create_directories_ec fs = Some message ->
  outStream (initLogFile directory filename fs st) = outStream st /\
  logFile (initLogFile directory filename fs st) = logFile st /\
  doColor (initLogFile directory filename fs st) = doColor st /\
  (LogLevel.leb (minLogLevel st) LogLevel.error = true ->
     written (initLogFile directory filename fs st) =
       (written st ++
        emit (outStream st) (open_failure_line st directory filename message))%list) /\
  (LogLevel.ltb LogLevel.error (minLogLevel st) = true ->
     written (initLogFile directory filename fs st) = written st) /\
  (doColor st = false ->
     String.concat "" (open_failure_line st directory filename message) =
     "[" ++ levelLabels st LogLevel.error ++ "] failed to open log file '" ++
     directory ++ "/" ++ filename ++ "': " ++ message).
Proof.
  intros Hdir Hec. unfold initLogFile. rewrite Hdir, Hec. cbn [negb]. unfold error.
  split; [apply logConcurrent_outStream |].
  split; [apply logConcurrent_logFile |].
  split; [apply logConcurrent_doColor |].
  split; [| split].
  - intros Hle. by rewrite logConcurrent_written, blocked_at_least.
  - intros Hlt. by rewrite logConcurrent_written, blocked_error_above.
  - intros Hplain. unfold open_failure_line, line, decoration, colored.
    rewrite Hplain. reflexivity.
Qed.

Lemma initLogFile_directory_failure_witness :
  text_on cout_rdbuf
    (initLogFile "/proc/logs" "Log.log"
       {| create_directories_ec := Some "Permission denied"; ofstream_is_open := false |}
       (disableColor initial))
  = "[ERROR] failed to open log file '/proc/logs/Log.log': Permission denied".
Proof.
  destruct (initLogFile_directory_failure "/proc/logs" "Log.log" "Permission denied"
              {| create_directories_ec := Some "Permission denied";
                 ofstream_is_open := false |}
              (disableColor initial)) as (_ & _ & _ & Hline & _);
    [reflexivity | reflexivity |].
  unfold text_on, chunks_on. rewrite Hline by reflexivity. reflexivity.
Defined.

(** ** Coloring of the two print paths *)

(** C9, as worded, fails: with coloring on, the labelled path does reset the
    color after the decoration, but it then prints the message through
    [printWithoutLabel], which wraps the message in the color again. *)
Lemma labelled_message_is_colored_too :
  written (details.print "x" initial) =
    emit cout_rdbuf
      [default_cols LogLevel.info; "["; "INFO"; "] "; reset_col;
       default_cols LogLevel.info; "x"; reset_col] /\
  written (details.print "x" initial) <>
    emit cout_rdbuf
      [default_cols LogLevel.info; "["; "INFO"; "] "; reset_col; "x"].
Proof. split; [reflexivity | vm_compute; discriminate]. Qed.

(** C9 (amended): when coloring is enabled, the labelled path [print] writes
    the color, the decoration [[LABEL] ] and the reset, and then the message
    wrapped in the color and the reset a second time; the label-less path
    [printWithoutLabel] writes the message wrapped in the color and the
    reset.  Neither changes anything but the stream. *)
Theorem print_paths_coloring (msg : string) st :
  doColor st = true ->
  details.print msg st =
    set_written
      (written st ++
       emit (outStream st)
         [cols st (currentLevel st); "["; levelLabels st (currentLevel st); "] "; reset_col;
          cols st (currentLevel st); msg; reset_col])%list st /\
  details.printWithoutLabel msg st =
    set_written
      (written st ++
       emit (outStream st) [cols st (currentLevel st); msg; reset_col])%list st.
Proof.
  intros Hcolor. rewrite print_spec, printWithoutLabel_spec.
  unfold decoration, colored. rewrite Hcolor. split; reflexivity.
Qed.

Lemma print_paths_coloring_witness :
  written (details.print "x" initial) =
    emit cout_rdbuf
      [default_cols LogLevel.info; "["; "INFO"; "] "; reset_col;
       default_cols LogLevel.info; "x"; reset_col] /\
  written (details.printWithoutLabel "x" initial) =
    emit cout_rdbuf [default_cols LogLevel.info; "x"; reset_col].
Proof.
  destruct (print_paths_coloring "x" initial) as [Hprint Hplain]; [reflexivity |].
  rewrite Hprint, Hplain. split; reflexivity.
Defined.

(** With coloring disabled both paths write plain text. *)
Lemma print_paths_plain (msg : string) st :
  doColor st = false ->
  written (details.print msg st) =
    (written st ++
     emit (outStream st) ["["; levelLabels st (currentLevel st); "] "; msg])%list /\
  written (details.printWithoutLabel msg st) =
    (written st ++ emit (outStream st) [msg])%list.
Proof.
  intros Hplain. rewrite print_spec, printWithoutLabel_spec.
  unfold decoration, colored. rewrite Hplain. split; reflexivity.
Qed.

(** ** File sink and coloring *)

Lemma dumpLogFile_doColor st : doColor (dumpLogFile st) = doColor st.
Proof.
  unfold dumpLogFile. destruct (logFile st); [| reflexivity].
  by destruct (bool_decide (outStream st = logFile_rdbuf)).
Qed.

Lemma dumpLogFile_active st :
  logFile st <> None -> outStream st = logFile_rdbuf ->
  outStream (dumpLogFile st) = cout_rdbuf /\ logFile (dumpLogFile st) = None.
Proof.
  intros Hopen Hactive. unfold dumpLogFile. destruct (logFile st); [| done].
  by rewrite Hactive.
Qed.

Lemma dumpLogFile_inactive st :
  outStream st <> logFile_rdbuf ->
  outStream (dumpLogFile st) = outStream st /\ logFile (dumpLogFile st) = None.
Proof.
  intros Hother. unfold dumpLogFile. destruct (logFile st) eqn:Hfile; [| done].
  by rewrite bool_decide_eq_false_2.
Qed.

Lemma initLogFile_opened directory filename fs st :
  empty directory = true \/ create_directories_ec fs = None ->
  ofstream_is_open fs = true ->
  initLogFile directory filename fs st =
  disableColor
    (set_outStream logFile_rdbuf
       (set_logFile (Some (mk_path directory filename))
          (if bool_decide (logFile st <> None) then dumpLogFile st else st))).
Proof.
  intros Hdir Hopen. unfold initLogFile.
  assert (Hec : (if negb (empty directory) then create_directories_ec fs else None) = None)
    by (destruct Hdir as [-> | ->]; [done | by destruct (negb _)]).
  rewrite Hec, Hopen. reflexivity.
Qed.

(** C10: when [initLogFile] opens a file (the directory exists or can be
    created and the stream opens), the file becomes the target and coloring
    is disabled.  [dumpLogFile] never changes the color flag; when the file
    is open and is the target it makes the console the target again and
    closes the file.  So after opening and closing a file the target is the
    console and coloring is still disabled, logging does not change that,
    and [enableColor] turns it on again. *)
Theorem file_sink_disables_color (directory filename : string) (fs : filesystem) st :
  empty directory = true \/ create_directories_ec fs = None ->
  ofstream_is_open fs = true ->
  doColor (initLogFile directory filename fs st) = false /\
  outStream (initLogFile directory filename fs st) = logFile_rdbuf /\
  logFile (initLogFile directory filename fs st) = Some (mk_path directory filename) /\
  (forall st', doColor (dumpLogFile st') = doColor st') /\
  (forall st', logFile st' <> None -> outStream st' = logFile_rdbuf ->
     outStream (dumpLogFile st') = cout_rdbuf /\ logFile (dumpLogFile st') = None) /\
  outStream (dumpLogFile (initLogFile directory filename fs st)) = cout_rdbuf /\
  logFile (dumpLogFile (initLogFile directory filename fs st)) = None /\
  doColor (dumpLogFile (initLogFile directory filename fs st)) = false /\
  (forall level log_with_label obj args,
     doColor (details.logConcurrent level log_with_label obj args
                (dumpLogFile (initLogFile directory filename fs st))) = false) /\
  doColor (enableColor (dumpLogFile (initLogFile directory filename fs st))) = true.
Proof.
  intros Hdir Hopen. rewrite initLogFile_opened by done.
  set (opened := disableColor _).
  assert (Hcolor : doColor opened = false) by reflexivity.
  assert (Htarget : outStream opened = logFile_rdbuf) by reflexivity.
  assert (Hfile : logFile opened = Some (mk_path directory filename)) by reflexivity.
  destruct (dumpLogFile_active opened) as [Hconsole Hclosed];
    [by rewrite Hfile | done |].
  split; [exact Hcolor |]. split; [exact Htarget |]. split; [exact Hfile |].
  split; [apply dumpLogFile_doColor |].
  split; [apply dumpLogFile_active |].
  split; [exact Hconsole |]. split; [exact Hclosed |].
  split; [by rewrite dumpLogFile_doColor |].
  split; [| reflexivity].
  intros. by rewrite logConcurrent_doColor, dumpLogFile_doColor.
Qed.

Lemma file_sink_disables_color_witness :
  doColor initial = true /\
  doColor (initLogFile "logs" "Log.log"
             {| create_directories_ec := None; ofstream_is_open := true |} initial) = false /\
  outStream (dumpLogFile
               (initLogFile "logs" "Log.log"
                  {| create_directories_ec := None; ofstream_is_open := true |} initial))
  = cout_rdbuf /\
  doColor (dumpLogFile
             (initLogFile "logs" "Log.log"
                {| create_directories_ec := None; ofstream_is_open := true |} initial))
  = false.
Proof.
  destruct (file_sink_disables_color "logs" "Log.log"
              {| create_directories_ec := None; ofstream_is_open := true |} initial)
    as (Hoff & _ & _ & _ & _ & Hconsole & _ & Hstill & _);
    [by right | reflexivity |].
  split; [reflexivity |]. split; [exact Hoff |].
  split; [exact Hconsole | exact Hstill].
Defined.

(** ** The sentinel and the duration templates *)

Lemma duration_cast_sentinel T :
  duration_cast T (-1) = if bool_decide (T = nanoseconds) then (-1)%Z else 0%Z.
Proof. by destruct T. Qed.

(** The public templates [endTimer<T>] and [getTimer<T>] pass the result of
    the internal lookup through [duration_cast<T>].  For a label that is not
    in the registry and a duration type coarser than nanoseconds, the -1
    nanosecond of the internal lookup is truncated to 0: the templates return
    0, and [logDuration<T>], which tests the count against -1, goes on to log
    a duration of 0 after the miss has been reported. *)
Theorem templates_truncate_the_sentinel (T : duration) (level : LogLevel.t)
    (label prefix suffix : string) (now : Z) st :
  timePoints st !! label = None ->
  T <> nanoseconds ->
  fst (Templated.details.endTimer label now st) = (-1)%Z /\
  fst (Templated.endTimer T label now st) = 0%Z /\
  fst (Templated.getTimer T label now st) = 0%Z /\
  Templated.logDuration T level label prefix suffix now st =
    (if empty prefix then
       log_at level (Text label)
         [Text ": "; Integer 0; Text suffix; Char (ascii_of_nat 10)]
     else
       log_at level (Text prefix) [Integer 0; Text suffix; Char (ascii_of_nat 10)])
      (snd (Templated.details.endTimer label now st)).
Proof.
  intros Hmiss Hcoarse.
  assert (Hcast : duration_cast T (-1) = 0%Z)
    by (rewrite duration_cast_sentinel; by rewrite bool_decide_eq_false_2).
  unfold Templated.logDuration, Templated.endTimer, Templated.getTimer.
  rewrite details_endTimer_missing, details_getTimer_missing by done.
  cbn [fst snd]. rewrite Hcast.
  split; [reflexivity |]. split; [reflexivity |]. split; [reflexivity |].
  by destruct (empty prefix).
Qed.

Lemma templates_truncate_the_sentinel_witness :
  fst (Templated.endTimer milliseconds "t" 200 (disableColor initial)) = 0%Z /\
  text_on cout_rdbuf
    (Templated.logDuration milliseconds LogLevel.log "t" "" "ms" 200 (disableColor initial))
  = "[ERROR] Label t not found!" ++ newline ++ "[OUT] t: 0ms" ++ newline.
Proof.
  destruct (templates_truncate_the_sentinel milliseconds LogLevel.log "t" "" "ms" 200
              (disableColor initial)) as (_ & Hzero & _ & Hlogged);
    [reflexivity | discriminate |].
  split; [exact Hzero |]. rewrite Hlogged. reflexivity.
Defined.

(** ** [type_name] *)

Lemma append_cons c (a b : string) : String c a ++ b = String c (a ++ b).
Proof. reflexivity. Qed.

Lemma length_append (a b : string) :
  String.length (a ++ b) = String.length a + String.length b.
Proof.
  induction a as [| c a IH]; [reflexivity |].
  rewrite append_cons. cbn [String.length]. by rewrite IH.
Qed.

Lemma substring_all (s : string) : substring 0 (String.length s) s = s.
Proof.
  induction s as [| c s IH]; [reflexivity |].
  cbn [String.length substring]. by rewrite IH.
Qed.

Lemma substring_front (a b : string) : substring 0 (String.length a) (a ++ b) = a.
Proof.
  induction a as [| c a IH].
  - by destruct b.
  - rewrite append_cons. cbn [String.length substring]. by rewrite IH.
Qed.

Lemma substring_skip (a b : string) n :
  substring (String.length a) n (a ++ b) = substring 0 n b.
Proof.
  induction a as [| c a IH]; [reflexivity |].
  rewrite append_cons. cbn [String.length substring]. exact IH.
Qed.

Lemma remove_prefix_append (prefix rest : string) :
  remove_prefix (String.length prefix) (prefix ++ rest) = rest.
Proof.
  unfold remove_prefix. rewrite length_append, substring_skip.
  replace (String.length prefix + String.length rest - String.length prefix)
    with (String.length rest) by lia.
  apply substring_all.
Qed.

Lemma remove_suffix_append (rest suffix : string) :
  remove_suffix (String.length suffix) (rest ++ suffix) = rest.
Proof.
  unfold remove_suffix. rewrite length_append.
  replace (String.length rest + String.length suffix - String.length suffix)
    with (String.length rest) by lia.
  apply substring_front.
Qed.

(** [type_name] gives back exactly the spelling of the type whenever the
    compiler's function signature has the form the branch for that compiler
    expects (its prefix, the spelling, its suffix); where no branch is taken
    it gives the empty string. *)
Theorem type_name_strips_the_signature (c : compiler) (spelling pretty : string) :
  c <> other_compiler ->
  type_name c (type_name_prefix c ++ spelling ++ type_name_suffix c) = spelling /\
  type_name other_compiler pretty = "".
Proof.
  intros Hknown. split; [| reflexivity].
  unfold type_name.
  assert (Hname : match c with
                  | other_compiler => ""
                  | _ => type_name_prefix c ++ spelling ++ type_name_suffix c
                  end = type_name_prefix c ++ spelling ++ type_name_suffix c)
    by (by destruct c).
  rewrite Hname. cbv zeta.
  by rewrite remove_prefix_append, remove_suffix_append.
Qed.

Lemma type_name_strips_the_signature_witness :
  type_name gnuc
    "constexpr std::string_view Logger::details::type_name() [with T = const NonStreamable; std::string_view = std::basic_string_view<char>]"
  = "const NonStreamable".
Proof.
  destruct (type_name_strips_the_signature gnuc "const NonStreamable" "")
    as [Hstripped _]; [discriminate |].
  exact Hstripped.
Defined.

(** ** More on timers *)

Lemma Fixed_endTimer_other label other now st :
  label <> other ->
  timePoints (snd (Fixed.endTimer label now st)) !! other = timePoints st !! other.
Proof.
  intros Hother. destruct (timePoints st !! label) as [t0 |] eqn:Hlookup.
  - rewrite (Fixed_endTimer_found label now t0) by done.
    cbn [snd set_mtx_engaged set_timePoints timePoints]. by apply lookup_delete_ne.
  - rewrite Fixed_endTimer_missing by done. cbn [snd].
    by rewrite label_not_found_timePoints.
Qed.

Lemma details_endTimer_other label other now st :
  label <> other ->
  timePoints (snd (Templated.details.endTimer label now st)) !! other =
  timePoints st !! other.
Proof.
  intros Hother. destruct (timePoints st !! label) as [t0 |] eqn:Hlookup.
  - rewrite (details_endTimer_found label now t0) by done.
    cbn [snd set_mtx_engaged set_timePoints timePoints]. by apply lookup_delete_ne.
  - rewrite details_endTimer_missing by done. cbn [snd].
    by rewrite label_not_found_timePoints.
Qed.

(** Starting a timer whose label is already running replaces it without a
    word: the state is the one a single [startTimer] at the later instant
    gives, nothing is written, and a reading is measured from the later
    start.  Timers are independent: neither [startTimer] nor [endTimer] on
    one label changes the entry of another label. *)
Theorem startTimer_restarts_and_spares_others (label other : string) (t0 t1 now : Z) st :
  label <> other ->
  snd (startTimer label t1 (snd (startTimer label t0 st))) = snd (startTimer label t1 st) /\
  written (snd (startTimer label t1 (snd (startTimer label t0 st)))) = written st /\
  fst (Fixed.getTimer label now (snd (startTimer label t1 (snd (startTimer label t0 st)))))
  = duration_cast milliseconds (now - t1) /\
  timePoints (snd (startTimer label t0 st)) !! other = timePoints st !! other /\
  timePoints (snd (Fixed.endTimer label now st)) !! other = timePoints st !! other /\
  timePoints (snd (Templated.details.endTimer label now st)) !! other =
  timePoints st !! other.
Proof.
  intros Hother. rewrite !startTimer_spec. cbn [snd].
  split.
  { cbn [set_mtx_engaged set_timePoints timePoints currentLevel minLogLevel doColor
         outStream logFile mtx mtx_engaged levelLabels cols written].
    by rewrite insert_insert_eq. }
  split; [reflexivity |].
  split.
  { rewrite (Fixed_getTimer_found label now t1); [reflexivity |].
    cbn [set_mtx_engaged set_timePoints timePoints]. apply lookup_insert_eq. }
  split.
  { cbn [set_mtx_engaged set_timePoints timePoints]. by apply lookup_insert_ne. }
  split; [by apply Fixed_endTimer_other | by apply details_endTimer_other].
Qed.

Lemma startTimer_restarts_and_spares_others_witness :
  fst (Fixed.getTimer "a" 9000000
         (snd (startTimer "a" 2000000 (snd (startTimer "a" 0 initial)))))
  = duration_cast milliseconds (9000000 - 2000000).
Proof.
  destruct (startTimer_restarts_and_spares_others "a" "b" 0 2000000 9000000 initial)
    as (_ & _ & Hreading & _); [discriminate |].
  exact Hreading.
Defined.

Lemma duration_cast_bounds T ns :
  (0 <= ns)%Z ->
  (period T * duration_cast T ns <= ns < period T * (duration_cast T ns + 1))%Z.
Proof.
  intros Hns. unfold duration_cast.
  assert (Hperiod : (0 < period T)%Z) by (destruct T; cbn; lia).
  rewrite Z.quot_div_nonneg by lia.
  pose proof (Z.mul_div_le ns (period T) Hperiod).
  pose proof (Z.mul_succ_div_gt ns (period T) Hperiod).
  lia.
Qed.

(** A reading of a running timer is the elapsed time truncated to whole
    units, never rounded up: with [v] the value returned, [v] units have
    fully elapsed since the start and [v + 1] units have not.  This holds
    for [getTimer] and [endTimer] of the millisecond revision and, for every
    duration type, for the templates. *)
Theorem timer_reading_truncates (T : duration) (label : string) (t0 now : Z) st :
  timePoints st !! label = Some t0 ->
  (t0 <= now)%Z ->
  (1000000 * fst (Fixed.getTimer label now st) <= now - t0
   < 1000000 * (fst (Fixed.getTimer label now st) + 1))%Z /\
  fst (Fixed.endTimer label now st) = fst (Fixed.getTimer label now st) /\
  (period T * fst (Templated.getTimer T label now st) <= now - t0
   < period T * (fst (Templated.getTimer T label now st) + 1))%Z /\
  fst (Templated.endTimer T label now st) = fst (Templated.getTimer T label now st).
Proof.
  intros Hfound Hclock.
  rewrite (Fixed_getTimer_found label now t0), (Fixed_endTimer_found label now t0),
    (Templated_getTimer_found T label now t0), (Templated_endTimer_found T label now t0)
    by done.
  cbn [fst]. rewrite duration_cast_nanoseconds.
  split; [apply (duration_cast_bounds milliseconds); lia |].
  split; [reflexivity |].
  split; [apply duration_cast_bounds; lia | reflexivity].
Qed.

Lemma timer_reading_truncates_witness :
  (1000000 * fst (Fixed.getTimer "t" 10999999 (snd (startTimer "t" 0 initial)))
   <= 10999999 - 0
   < 1000000 * (fst (Fixed.getTimer "t" 10999999 (snd (startTimer "t" 0 initial))) + 1))%Z.
Proof.
  destruct (timer_reading_truncates milliseconds "t" 0 10999999
              (snd (startTimer "t" 0 initial))) as [Hbounds _];
    [reflexivity | lia |].
  exact Hbounds.
Defined.

(** On a running timer the templates at their default duration type,
    milliseconds, return what the millisecond revision returns and leave the
    same state ([getTimer] apart from the engaged flag, which the templated
    one clears because it takes the lock). *)
Theorem default_template_agrees_on_running_timers (label : string) (t0 now : Z) st :
  timePoints st !! label = Some t0 ->
  Templated.endTimer milliseconds label now st = Fixed.endTimer label now st /\
  fst (Templated.getTimer milliseconds label now st) = fst (Fixed.getTimer label now st) /\
  snd (Templated.getTimer milliseconds label now st) =
  set_mtx_engaged false (snd (Fixed.getTimer label now st)).
Proof.
  intros Hfound.
  rewrite (Fixed_getTimer_found label now t0), (Fixed_endTimer_found label now t0),
    (Templated_getTimer_found milliseconds label now t0),
    (Templated_endTimer_found milliseconds label now t0) by done.
  rewrite duration_cast_nanoseconds. split; [reflexivity |]. split; reflexivity.
Qed.

Lemma default_template_agrees_on_running_timers_witness :
  Templated.endTimer milliseconds "t" 7000000 (snd (startTimer "t" 0 initial))
  = Fixed.endTimer "t" 7000000 (snd (startTimer "t" 0 initial)).
Proof.
  destruct (default_template_agrees_on_running_timers "t" 0 7000000
              (snd (startTimer "t" 0 initial))) as [Hsame _]; [reflexivity |].
  exact Hsame.
Defined.

(** ** More on the log file *)

Lemma set_logFile_id st : set_logFile (logFile st) st = st.
Proof. by destruct st. Qed.

Lemma dumpLogFile_closed st : logFile st = None -> dumpLogFile st = st.
Proof. unfold dumpLogFile. by intros ->. Qed.

Lemma dumpLogFile_logFile st : logFile (dumpLogFile st) = None.
Proof.
  unfold dumpLogFile. destruct (logFile st) eqn:Hfile; [| exact Hfile].
  by destruct (bool_decide (outStream st = logFile_rdbuf)).
Qed.

Lemma dumpLogFile_written st : written (dumpLogFile st) = written st.
Proof.
  unfold dumpLogFile. destruct (logFile st); [| reflexivity].
  by destruct (bool_decide (outStream st = logFile_rdbuf)).
Qed.

Lemma dumpLogFile_target st :
  target_is_open st -> outStream (dumpLogFile st) <> logFile_rdbuf.
Proof.
  intros Hopen. unfold dumpLogFile. destruct (logFile st) eqn:Hfile.
  - destruct (decide (outStream st = logFile_rdbuf)) as [Hactive | Hother].
    + by rewrite bool_decide_eq_true_2.
    + by rewrite bool_decide_eq_false_2.
  - intros Hactive. by apply Hopen.
Qed.

(** [dumpLogFile] does nothing when no file is open, and calling it twice is
    the same as calling it once.  It never writes and never touches the color
    flag; it leaves no file open; a target other than the file (a stream the
    caller installed with [setOutStream] while the file was open) stays the
    target; and when the stream pointed at the file only while it was open,
    it does not point at the file afterwards. *)
Theorem dumpLogFile_edge_cases st :
  (logFile st = None -> dumpLogFile st = st) /\
  dumpLogFile (dumpLogFile st) = dumpLogFile st /\
  logFile (dumpLogFile st) = None /\
  written (dumpLogFile st) = written st /\
  doColor (dumpLogFile st) = doColor st /\
  (outStream st <> logFile_rdbuf -> outStream (dumpLogFile st) = outStream st) /\
  (target_is_open st -> outStream (dumpLogFile st) <> logFile_rdbuf).
Proof.
  split; [apply dumpLogFile_closed |].
  split; [apply dumpLogFile_closed, dumpLogFile_logFile |].
  split; [apply dumpLogFile_logFile |].
  split; [apply dumpLogFile_written |].
  split; [apply dumpLogFile_doColor |].
  split; [apply dumpLogFile_inactive | apply dumpLogFile_target].
Qed.

Lemma dumpLogFile_edge_cases_witness :
  dumpLogFile initial = initial /\
  outStream
    (dumpLogFile
       (Fixed.setOutStream (rdbuf (caller_stream 1))
          (initLogFile "logs" "Log.log"
             {| create_directories_ec := None; ofstream_is_open := true |} initial)))
  = outStream
      (Fixed.setOutStream (rdbuf (caller_stream 1))
         (initLogFile "logs" "Log.log"
            {| create_directories_ec := None; ofstream_is_open := true |} initial)).
Proof.
  destruct (dumpLogFile_edge_cases initial) as [Hnone _].
  destruct (dumpLogFile_edge_cases
              (Fixed.setOutStream (rdbuf (caller_stream 1))
                 (initLogFile "logs" "Log.log"
                    {| create_directories_ec := None; ofstream_is_open := true |}
                    initial)))
    as (_ & _ & _ & _ & _ & Hforeign & _).
  split; [apply Hnone; reflexivity | apply Hforeign; discriminate].
Defined.

Lemma initLogFile_not_opened directory filename fs st :
  empty directory = true \/ create_directories_ec fs = None ->
  ofstream_is_open fs = false ->
  initLogFile directory filename fs st = dumpLogFile st.
Proof.
  intros Hdir Hclosed. unfold initLogFile.
  assert (Hec : (if negb (empty directory) then create_directories_ec fs else None) = None)
    by (destruct Hdir as [-> | ->]; [done | by destruct (negb _)]).
  rewrite Hec, Hclosed.
  assert (Hdump : (if bool_decide (logFile st <> None) then dumpLogFile st else st)
                  = dumpLogFile st).
  { destruct (logFile st) eqn:Hfile.
    - by rewrite bool_decide_eq_true_2.
    - rewrite bool_decide_eq_false_2 by (by intros Hne). symmetry.
      by apply dumpLogFile_closed. }
  cbv zeta. rewrite Hdump.
  pose proof (set_logFile_id (dumpLogFile st)) as Hid.
  rewrite dumpLogFile_logFile in Hid. rewrite Hid.
  rewrite bool_decide_eq_false_2; [reflexivity |].
  rewrite dumpLogFile_logFile. by intros Hne.
Qed.

(** When the directory is there (or none was asked for) but the stream on
    the file cannot be opened, [initLogFile] reports nothing: it does exactly
    what [dumpLogFile] does.  A file that was open before is closed and, if
    it was the target, the console is the target again; the color flag is
    left as it was. *)
Theorem initLogFile_open_failure (directory filename : string) (fs : filesystem) st :
  empty directory = true \/ create_directories_ec fs = None ->
  ofstream_is_open fs = false ->
  initLogFile directory filename fs st = dumpLogFile st /\
  written (initLogFile directory filename fs st) = written st /\
  logFile (initLogFile directory filename fs st) = None /\
  doColor (initLogFile directory filename fs st) = doColor st.
Proof.
  intros Hdir Hclosed. rewrite initLogFile_not_opened by done.
  split; [reflexivity |]. split; [apply dumpLogFile_written |].
  split; [apply dumpLogFile_logFile | apply dumpLogFile_doColor].
Qed.

Lemma initLogFile_open_failure_witness :
  outStream
    (initLogFile "logs" "second.log"
       {| create_directories_ec := None; ofstream_is_open := false |}
       (initLogFile "logs" "first.log"
          {| create_directories_ec := None; ofstream_is_open := true |} initial))
  = cout_rdbuf.
Proof.
  destruct (initLogFile_open_failure "logs" "second.log"
              {| create_directories_ec := None; ofstream_is_open := false |}
              (initLogFile "logs" "first.log"
                 {| create_directories_ec := None; ofstream_is_open := true |} initial))
    as [Hsame _]; [by right | reflexivity |].
  rewrite Hsame. reflexivity.
Defined.

(** ** Plain output *)

Lemma plain_line_uncolored st lv log_with_label obj args :
  doColor st = false ->
  line st lv log_with_label obj args = plain_line st lv log_with_label obj args.
Proof.
  intros Hplain. unfold line, plain_line, decoration, colored. rewrite Hplain.
  apply (f_equal (app _)). generalize (obj :: args). intros objs.
  induction objs as [| arg objs IH]; [reflexivity |].
  cbn [flat_map map]. by rewrite IH.
Qed.

Lemma append_empty_r (x : string) : x ++ "" = x.
Proof.
  induction x as [| c x IH]; [reflexivity |].
  rewrite append_cons. by rewrite IH.
Qed.

Lemma concat_cons (x : string) (xs : list string) :
  String.concat "" (x :: xs) = x ++ String.concat "" xs.
Proof.
  destruct xs as [| y ys]; cbn [String.concat]; [| reflexivity].
  symmetry. apply append_empty_r.
Qed.

Lemma concat_app (xs ys : list string) :
  String.concat "" (xs ++ ys)%list = String.concat "" xs ++ String.concat "" ys.
Proof.
  induction xs as [| x xs IH]; [reflexivity |].
  change ((x :: xs) ++ ys)%list with (x :: (xs ++ ys))%list.
  by rewrite !concat_cons, IH, append_assoc.
Qed.

(** Once [initLogFile] has opened a file, a log call that passes the gate
    writes to the file, and what it writes carries no color sequence of the
    logger: the chunks are the bracketed label (when the call has one)
    followed by the text of each argument, so the text of the line is
    [[LABEL] ] followed by the arguments' texts. *)
Theorem file_lines_are_plain (directory filename : string) (fs : filesystem)
    (level : LogLevel.t) (log_with_label : bool) (obj : Loggable) (args : list Loggable) st :
  empty directory = true \/ create_directories_ec fs = None ->
  ofstream_is_open fs = true ->
  blocked level (minLogLevel st) = false ->
  written (details.logConcurrent level log_with_label obj args
             (initLogFile directory filename fs st)) =
    (written st ++
     emit logFile_rdbuf (plain_line st level log_with_label obj args))%list /\
  String.concat "" (plain_line st level log_with_label obj args) =
  (if log_with_label then "[" ++ levelLabels st level ++ "] " else "") ++
  String.concat "" (map representation (obj :: args)).
Proof.
  intros Hdir Hopen Hgate. split.
  - rewrite logConcurrent_written, initLogFile_opened by done.
    set (previous := if bool_decide (logFile st <> None) then dumpLogFile st else st).
    assert (Hmin : minLogLevel previous = minLogLevel st)
      by (unfold previous, dumpLogFile; by repeat case_match).
    assert (Hwritten : written previous = written st)
      by (unfold previous; case_match; [apply dumpLogFile_written | reflexivity]).
    assert (Hlabels : levelLabels previous = levelLabels st)
      by (unfold previous, dumpLogFile; by repeat case_match).
    cbn [disableColor set_doColor set_outStream set_logFile minLogLevel written outStream].
    rewrite Hmin, Hgate, Hwritten. f_equal. f_equal.
    rewrite plain_line_uncolored by reflexivity.
    unfold plain_line.
    cbn [disableColor set_doColor set_outStream set_logFile levelLabels].
    by rewrite Hlabels.
  - unfold plain_line. rewrite concat_app. by destruct log_with_label.
Qed.

Lemma file_lines_are_plain_witness :
  text_on logFile_rdbuf
    (warn (Text "x=") [Integer 5; Char (ascii_of_nat 10)]
       (initLogFile "logs" "Log.log"
          {| create_directories_ec := None; ofstream_is_open := true |} initial))
  = "[WARNING] x=5" ++ newline.
Proof.
  destruct (file_lines_are_plain "logs" "Log.log"
              {| create_directories_ec := None; ofstream_is_open := true |}
              LogLevel.warn true (Text "x=") [Integer 5; Char (ascii_of_nat 10)] initial)
    as [Hline _]; [by right | reflexivity | reflexivity |].
  unfold text_on, chunks_on, warn. rewrite Hline. reflexivity.
Defined.

(** ** Splitting a call, and where the bytes go *)

Lemma line_more_args st lv log_with_label obj args obj' args' :
  line st lv log_with_label obj (args ++ obj' :: args')%list =
  (line st lv log_with_label obj args ++ line st lv false obj' args')%list.
Proof.
  unfold line. cbn [app]. change (obj :: args ++ obj' :: args')%list
    with ((obj :: args) ++ (obj' :: args'))%list.
  by rewrite flat_map_app, app_assoc.
Qed.

Lemma logged_then_logged lv log_with_label obj args obj' args' st :
  logged lv false obj' args' (logged lv log_with_label obj args st) =
  logged lv log_with_label obj (args ++ obj' :: args')%list st.
Proof.
  transitivity
    (set_mtx_engaged false
       (set_written
          ((written st ++ emit (outStream st) (line st lv log_with_label obj args)) ++
           emit (outStream st) (line st lv false obj' args'))%list
          (set_currentLevel lv st)));
    [reflexivity |].
  unfold logged. by rewrite <- app_assoc, <- emit_app, line_more_args.
Qed.

(** The unconditional entry point can be split: logging some values with
    [log] and the following values with a second [log] leaves exactly the
    state, and so the output, of one [log] call with all the values.  A
    labelled call that passes the gate cannot be split this way: the second
    call writes the label again. *)
Theorem log_calls_concatenate (level : LogLevel.t) (obj : Loggable)
    (args : list Loggable) (obj' : Loggable) (args' : list Loggable) st :
  log obj' args' (log obj args st) = log obj (args ++ obj' :: args')%list st /\
  (blocked level (minLogLevel st) = false ->
   written (log_at level obj' args' (log_at level obj args st)) <>
   written (log_at level obj (args ++ obj' :: args')%list st)).
Proof.
  split.
  - unfold log. rewrite !logConcurrent_passes by apply blocked_log.
    apply logged_then_logged.
  - intros Hgate. unfold log_at.
    rewrite (logConcurrent_written level true obj' args').
    assert (Hmin : minLogLevel (details.logConcurrent level true obj args st)
                   = minLogLevel st)
      by (rewrite logConcurrent_passes by done; reflexivity).
    rewrite Hmin, Hgate, logConcurrent_outStream.
    rewrite !logConcurrent_written, Hgate, line_more_args.
    rewrite emit_app, app_assoc. intros Heq. apply app_inv_head in Heq.
    assert (Hline : line (details.logConcurrent level true obj args st)
                      level true obj' args' =
                    (decoration st level ++ line st level false obj' args')%list)
      by (rewrite logConcurrent_passes by done; reflexivity).
    rewrite Hline, emit_app in Heq.
    apply (f_equal (@length _)) in Heq. rewrite length_app in Heq.
    assert (Hdeco : 0 < length (emit (outStream st) (decoration st level)))
      by (unfold emit, decoration, colored; rewrite length_map;
          destruct (doColor st); cbn; lia).
    lia.
Qed.

Lemma log_calls_concatenate_witness :
  text_on cout_rdbuf
    (log (Char (ascii_of_nat 10)) [] (log (Text "x=") [Integer 5] (disableColor initial)))
  = text_on cout_rdbuf
      (log (Text "x=") [Integer 5; Char (ascii_of_nat 10)] (disableColor initial)) /\
  written (log_at LogLevel.warn (Integer 5) [] (log_at LogLevel.warn (Text "x=") [] initial))
  <> written (log_at LogLevel.warn (Text "x=") [Integer 5] initial).
Proof.
  destruct (log_calls_concatenate LogLevel.warn (Text "x=") [Integer 5]
              (Char (ascii_of_nat 10)) [] (disableColor initial)) as [Hsplit _].
  destruct (log_calls_concatenate LogLevel.warn (Text "x=") []
              (Integer 5) [] initial) as [_ Hlabel].
  split; [by rewrite Hsplit | apply Hlabel; reflexivity].
Defined.

(** ** Labels and colors *)

Lemma setLogLabel_spec lv label st :
  setLogLabel lv label st =
  set_mtx_engaged false
    (set_levelLabels (fun l => if bool_decide (l = lv) then label else levelLabels st l) st).
Proof. by destruct st. Qed.

Lemma setLogColor_spec lv color st :
  setLogColor lv color st =
  set_mtx_engaged false
    (set_cols (fun l => if bool_decide (l = lv) then color else cols st l) st).
Proof. by destruct st. Qed.



(** ** Where the bytes go *)

Lemma filter_emit_same b chunks :
  filter (fun e : streambuf * string => bool_decide (e.1 = b)) (emit b chunks)
  = emit b chunks.
Proof.
  induction chunks as [| chunk chunks IH]; [reflexivity |].
  cbn [emit map]. rewrite filter_cons_True by (by apply bool_decide_pack).
  f_equal. exact IH.
Qed.

Lemma filter_emit_other b os chunks :
  os <> b ->
  filter (fun e : streambuf * string => bool_decide (e.1 = b)) (emit os chunks) = [].
Proof.
  intros Hother. induction chunks as [| chunk chunks IH]; [reflexivity |].
  cbn [emit map]. rewrite filter_cons_False; [exact IH |].
  intros Hin. by apply bool_decide_unpack in Hin.
Qed.

Lemma map_snd_emit b chunks : map snd (emit b chunks) = chunks.
Proof.
  induction chunks as [| chunk chunks IH]; [reflexivity |].
  cbn [emit map snd]. f_equal. exact IH.
Qed.

Lemma chunks_on_logConcurrent b level log_with_label obj args st :
  chunks_on b (details.logConcurrent level log_with_label obj args st) =
  (chunks_on b st ++
   if bool_decide (outStream st = b) && negb (blocked level (minLogLevel st))
   then line st level log_with_label obj args else [])%list.
Proof.
  unfold chunks_on. rewrite logConcurrent_written.
  destruct (blocked level (minLogLevel st)).
  - rewrite andb_false_r. by rewrite app_nil_r.
  - rewrite andb_true_r, filter_app, map_app. f_equal.
    destruct (decide (outStream st = b)) as [-> | Hother].
    + rewrite bool_decide_eq_true_2 by reflexivity.
      by rewrite filter_emit_same, map_snd_emit.
    + rewrite bool_decide_eq_false_2 by exact Hother.
      by rewrite filter_emit_other.
Qed.

(** A log call writes to the buffer the stream points at and to no other:
    the contents of every other buffer are what they were, and the target
    receives the line when the call passes the gate and nothing when it does
    not.  After [setOutStream(os)] (of either revision) the target is the
    buffer of [os]: a passing call appends its line there, and the buffer
    that was the target before keeps its contents. *)
Theorem output_goes_to_the_target_only (b : streambuf) (os : ostream)
    (level : LogLevel.t) (log_with_label : bool) (obj : Loggable) (args : list Loggable) st :
  (b <> outStream st ->
   chunks_on b (details.logConcurrent level log_with_label obj args st) = chunks_on b st) /\
  chunks_on (outStream st) (details.logConcurrent level log_with_label obj args st) =
    (chunks_on (outStream st) st ++
     if blocked level (minLogLevel st) then []
     else line st level log_with_label obj args)%list /\
  chunks_on (rdbuf os)
    (details.logConcurrent level log_with_label obj args
       (Fixed.setOutStream (rdbuf os) st)) =
    (chunks_on (rdbuf os) st ++
     if blocked level (minLogLevel st) then []
     else line st level log_with_label obj args)%list /\
  (b <> rdbuf os ->
   chunks_on b
     (details.logConcurrent level log_with_label obj args
        (Fixed.setOutStream (rdbuf os) st)) = chunks_on b st /\
   chunks_on b
     (details.logConcurrent level log_with_label obj args
        (Templated.setOutStream (rdbuf os) st)) = chunks_on b st).
Proof.
  split; [| split; [| split]].
  - intros Hother. rewrite chunks_on_logConcurrent.
    rewrite bool_decide_eq_false_2 by congruence. cbn [andb]. apply app_nil_r.
  - rewrite chunks_on_logConcurrent, bool_decide_eq_true_2 by reflexivity.
    cbn [andb]. by destruct (blocked level (minLogLevel st)).
  - rewrite chunks_on_logConcurrent.
    cbn [Fixed.setOutStream set_outStream outStream minLogLevel].
    rewrite bool_decide_eq_true_2 by reflexivity.
    cbn [andb]. by destruct (blocked level (minLogLevel st)).
  - intros Hother. split.
    + rewrite chunks_on_logConcurrent.
      cbn [Fixed.setOutStream set_outStream outStream minLogLevel].
      rewrite bool_decide_eq_false_2 by congruence. cbn [andb]. apply app_nil_r.
    + rewrite chunks_on_logConcurrent.
      assert (Htarget : outStream (Templated.setOutStream (rdbuf os) st) = rdbuf os)
        by (by destruct st).
      rewrite Htarget, bool_decide_eq_false_2 by congruence.
      cbn [andb]. rewrite app_nil_r. by destruct st.
Qed.

Lemma output_goes_to_the_target_only_witness :
  chunks_on cout_rdbuf
    (details.logConcurrent LogLevel.warn true (Text "x") []
       (Fixed.setOutStream (rdbuf (caller_stream 1)) initial))
  = chunks_on cout_rdbuf initial.
Proof.
  destruct (output_goes_to_the_target_only cout_rdbuf (caller_stream 1)
              LogLevel.warn true (Text "x") [] initial) as (_ & _ & _ & Hother).
  destruct Hother as [Hfixed _]; [discriminate | exact Hfixed].
Defined.

(** ** The lock and the sink across calls *)

Lemma framed_refl st : framed 0 st st.
Proof. unfold framed. split; [done |]. split; [done |]. split; [done | lia]. Qed.

Lemma framed_logConcurrent leak level log_with_label obj args st st' :
  framed leak st st' ->
  framed leak st (details.logConcurrent level log_with_label obj args st').
Proof.
  intros (_ & Htarget & Hfile & Hmtx). unfold framed.
  rewrite logConcurrent_engaged, logConcurrent_outStream, logConcurrent_logFile,
    logConcurrent_mtx.
  split; [done |]. split; [done |]. split; done.
Qed.

Lemma framed_between_calls leak st st' :
  framed leak st st' -> between_calls st -> between_calls st'.
Proof.
  intros (Hengaged & Htarget & Hfile & _) [Hclear Hopen]. split; [by apply Hengaged |].
  unfold target_is_open. rewrite Htarget, Hfile. exact Hopen.
Qed.

Lemma between_calls_logConcurrent level log_with_label obj args st :
  between_calls st ->
  between_calls (details.logConcurrent level log_with_label obj args st).
Proof.
  apply (framed_between_calls 0). apply framed_logConcurrent, framed_refl.
Qed.

Lemma framed_locked_miss label st :
  framed 1 st (label_not_found label (details.lockStream st)).
Proof.
  unfold framed. rewrite label_not_found_engaged, label_not_found_mtx.
  unfold label_not_found, error. rewrite logConcurrent_outStream, logConcurrent_logFile.
  split; [done |]. split; [done |]. split; [done |]. cbn. lia.
Qed.

Lemma framed_Fixed_endTimer label now st :
  framed (if bool_decide (timePoints st !! label = None) then 1 else 0) st
    (snd (Fixed.endTimer label now st)).
Proof.
  destruct (timePoints st !! label) as [t0 |] eqn:Hlookup.
  - rewrite (Fixed_endTimer_found label now t0) by done.
    rewrite bool_decide_eq_false_2 by done. cbn [snd].
    unfold framed. split; [done |]. split; [done |]. split; [done |]. cbn. lia.
  - rewrite Fixed_endTimer_missing by done.
    rewrite bool_decide_eq_true_2 by done. apply framed_locked_miss.
Qed.

Lemma framed_Fixed_getTimer label now st :
  framed 0 st (snd (Fixed.getTimer label now st)).
Proof.
  destruct (timePoints st !! label) as [t0 |] eqn:Hlookup.
  - rewrite (Fixed_getTimer_found label now t0) by done. apply framed_refl.
  - rewrite Fixed_getTimer_missing by done. cbn [snd].
    apply framed_logConcurrent, framed_refl.
Qed.

Lemma framed_details_endTimer label now st :
  framed (if bool_decide (timePoints st !! label = None) then 1 else 0) st
    (snd (Templated.details.endTimer label now st)).
Proof.
  destruct (timePoints st !! label) as [t0 |] eqn:Hlookup.
  - rewrite (details_endTimer_found label now t0) by done.
    rewrite bool_decide_eq_false_2 by done. cbn [snd].
    unfold framed. split; [done |]. split; [done |]. split; [done |]. cbn. lia.
  - rewrite details_endTimer_missing by done.
    rewrite bool_decide_eq_true_2 by done. apply framed_locked_miss.
Qed.

Lemma framed_details_getTimer label now st :
  framed (if bool_decide (timePoints st !! label = None) then 1 else 0) st
    (snd (Templated.details.getTimer label now st)).
Proof.
  destruct (timePoints st !! label) as [t0 |] eqn:Hlookup.
  - rewrite (details_getTimer_found label now t0) by done.
    rewrite bool_decide_eq_false_2 by done. cbn [snd].
    unfold framed. split; [done |]. split; [done |]. split; [done |]. cbn. lia.
  - rewrite details_getTimer_missing by done.
    rewrite bool_decide_eq_true_2 by done. apply framed_locked_miss.
Qed.

Lemma framed_run_fixed_timers (c : fixed_call) st :
  (forall common, c <> fixed_common common) ->
  (forall os, c <> fixed_setOutStream os) ->
  framed (if fixed_locked_miss c st then 1 else 0) st (run_fixed c st).
Proof.
  intros Hcommon Hstream.
  destruct c as [common | os | label now | label now | label prefix suffix now
                | label prefix suffix now]; cbn [run_fixed fixed_locked_miss].
  - by destruct (Hcommon common).
  - by destruct (Hstream os).
  - apply framed_Fixed_endTimer.
  - apply framed_Fixed_getTimer.
  - unfold Fixed.logDuration. pose proof (framed_Fixed_endTimer label now st) as Hend.
    destruct (Fixed.endTimer label now st) as [dur st']. cbn [snd] in Hend.
    destruct (negb (dur =? -1)%Z); [by apply framed_logConcurrent | exact Hend].
  - unfold Fixed.logDurationPersistent.
    pose proof (framed_Fixed_getTimer label now st) as Hget.
    destruct (Fixed.getTimer label now st) as [dur st']. cbn [snd] in Hget.
    destruct (negb (dur =? -1)%Z); [by apply framed_logConcurrent | exact Hget].
Qed.

Lemma framed_run_templated_timers (c : templated_call) st :
  (forall common, c <> templated_common common) ->
  (forall os, c <> templated_setOutStream os) ->
  framed (if templated_locked_miss c st then 1 else 0) st (run_templated c st).
Proof.
  intros Hcommon Hstream.
  destruct c as [common | os | T label now | T label now
                | T level label prefix suffix now | T level label prefix suffix now];
    cbn [run_templated templated_locked_miss].
  - by destruct (Hcommon common).
  - by destruct (Hstream os).
  - unfold Templated.endTimer. pose proof (framed_details_endTimer label now st) as Hend.
    by destruct (Templated.details.endTimer label now st) as [dur st'].
  - unfold Templated.getTimer. pose proof (framed_details_getTimer label now st) as Hget.
    by destruct (Templated.details.getTimer label now st) as [dur st'].
  - unfold Templated.logDuration, Templated.endTimer, log_at.
    pose proof (framed_details_endTimer label now st) as Hend.
    destruct (Templated.details.endTimer label now st) as [dur st']. cbn [snd] in Hend.
    destruct (duration_cast T dur =? -1)%Z; [exact Hend |].
    destruct (empty prefix); by apply framed_logConcurrent.
  - unfold Templated.logDurationPersistent, Templated.getTimer, log_at.
    pose proof (framed_details_getTimer label now st) as Hget.
    destruct (Templated.details.getTimer label now st) as [dur st']. cbn [snd] in Hget.
    destruct (duration_cast T dur =? -1)%Z; [exact Hget |].
    destruct (empty prefix); by apply framed_logConcurrent.
Qed.

Lemma dumpLogFile_mtx st :
  mtx (dumpLogFile st) = mtx st /\ mtx_engaged (dumpLogFile st) = mtx_engaged st.
Proof.
  unfold dumpLogFile. destruct (logFile st); [| done].
  by destruct (bool_decide (outStream st = logFile_rdbuf)).
Qed.

Lemma initLogFile_cases directory filename fs st :
  (exists message,
     initLogFile directory filename fs st =
     error (Text "failed to open log file '")
       [Text directory; Text "/"; Text filename; Text "': "; Text message] st) \/
  initLogFile directory filename fs st =
    disableColor
      (set_outStream logFile_rdbuf
         (set_logFile (Some (mk_path directory filename))
            (if bool_decide (logFile st <> None) then dumpLogFile st else st))) \/
  initLogFile directory filename fs st = dumpLogFile st.
Proof.
  destruct (empty directory) eqn:Hdir.
  - destruct (ofstream_is_open fs) eqn:Hopen.
    + right; left. apply initLogFile_opened; [by left | done].
    + right; right. apply initLogFile_not_opened; [by left | done].
  - destruct (create_directories_ec fs) as [message |] eqn:Hec.
    + left. exists message. unfold initLogFile. by rewrite Hdir, Hec.
    + destruct (ofstream_is_open fs) eqn:Hopen.
      * right; left. apply initLogFile_opened; [by right | done].
      * right; right. apply initLogFile_not_opened; [by right | done].
Qed.

Lemma run_call_mtx (c : call) st : mtx (run_call c st) = mtx st.
Proof.
  destruct c as [level obj args | obj args | lv label | lv color | | | lv
                | label now | directory filename fs |]; cbn [run_call].
  - apply logConcurrent_mtx.
  - apply logConcurrent_mtx.
  - by rewrite setLogLabel_spec.
  - by rewrite setLogColor_spec.
  - reflexivity.
  - reflexivity.
  - reflexivity.
  - apply startTimer_mtx.
  - destruct (initLogFile_cases directory filename fs st) as [[message ->] | [-> | ->]].
    + apply logConcurrent_mtx.
    + cbn [disableColor set_doColor set_outStream set_logFile mtx].
      destruct (bool_decide (logFile st <> None)); [apply dumpLogFile_mtx | reflexivity].
    + apply dumpLogFile_mtx.
  - apply dumpLogFile_mtx.
Qed.

Lemma run_call_between_calls (c : call) st :
  between_calls st -> between_calls (run_call c st).
Proof.
  intros Hbetween.
  destruct c as [level obj args | obj args | lv label | lv color | | | lv
                | label now | directory filename fs |]; cbn [run_call].
  - by apply between_calls_logConcurrent.
  - by apply between_calls_logConcurrent.
  - rewrite setLogLabel_spec. destruct Hbetween as [_ Hopen]. by split.
  - rewrite setLogColor_spec. destruct Hbetween as [_ Hopen]. by split.
  - exact Hbetween.
  - exact Hbetween.
  - exact Hbetween.
  - rewrite startTimer_spec. destruct Hbetween as [_ Hopen]. by split.
  - destruct Hbetween as [Hclear Hopen].
    destruct (initLogFile_cases directory filename fs st) as [[message ->] | [-> | ->]].
    + by apply between_calls_logConcurrent.
    + split; [| by intros _].
      cbn [disableColor set_doColor set_outStream set_logFile mtx_engaged].
      destruct (bool_decide (logFile st <> None)); [| exact Hclear].
      by rewrite (proj2 (dumpLogFile_mtx st)).
    + split; [by rewrite (proj2 (dumpLogFile_mtx st)) |].
      intros Hfile. by destruct (dumpLogFile_target st Hopen).
  - destruct Hbetween as [Hclear Hopen].
    split; [by rewrite (proj2 (dumpLogFile_mtx st)) |].
    intros Hfile. by destruct (dumpLogFile_target st Hopen).
Qed.

Lemma rdbuf_not_logFile os : rdbuf os <> logFile_rdbuf.
Proof. by destruct os. Qed.

Lemma run_fixed_between_calls (c : fixed_call) st :
  between_calls st -> between_calls (run_fixed c st).
Proof.
  intros Hbetween.
  destruct c as [common | os | label now | label now | label prefix suffix now
                | label prefix suffix now].
  - by apply run_call_between_calls.
  - destruct Hbetween as [Hclear _]. split; [exact Hclear |].
    intros Hfile. by destruct (rdbuf_not_logFile os).
  - by eapply framed_between_calls; [apply framed_run_fixed_timers |].
  - by eapply framed_between_calls; [apply framed_run_fixed_timers |].
  - by eapply framed_between_calls; [apply framed_run_fixed_timers |].
  - by eapply framed_between_calls; [apply framed_run_fixed_timers |].
Qed.

Lemma run_templated_between_calls (c : templated_call) st :
  between_calls st -> between_calls (run_templated c st).
Proof.
  intros Hbetween.
  destruct c as [common | os | T label now | T label now
                | T level label prefix suffix now | T level label prefix suffix now].
  - by apply run_call_between_calls.
  - cbn [run_templated]. split; [by destruct st |].
    intros Hfile. destruct (rdbuf_not_logFile os). rewrite <- Hfile. by destruct st.
  - by eapply framed_between_calls; [apply framed_run_templated_timers |].
  - by eapply framed_between_calls; [apply framed_run_templated_timers |].
  - by eapply framed_between_calls; [apply framed_run_templated_timers |].
  - by eapply framed_between_calls; [apply framed_run_templated_timers |].
Qed.

Lemma run_fixed_calls_between_calls calls : forall st,
  between_calls st -> between_calls (run_fixed_calls calls st).
Proof.
  induction calls as [| c calls IH]; intros st Hbetween; [exact Hbetween |].
  apply IH. by apply run_fixed_between_calls.
Qed.

Lemma run_templated_calls_between_calls calls : forall st,
  between_calls st -> between_calls (run_templated_calls calls st).
Proof.
  induction calls as [| c calls IH]; intros st Hbetween; [exact Hbetween |].
  apply IH. by apply run_templated_between_calls.
Qed.

Lemma between_calls_initial : between_calls initial.
Proof. split; [reflexivity | discriminate]. Qed.

(** After any sequence of calls of the interface, starting from the static
    initialisers, the engaged flag of the lock is clear and the stream points
    at the file only if the file is open (the logger never writes into a
    closed file).  In every such state a log call that the gate filters
    changes nothing at all. *)
Theorem every_reachable_state_is_between_calls
    (fixed : list fixed_call) (templated : list templated_call) :
  between_calls (run_fixed_calls fixed initial) /\
  between_calls (run_templated_calls templated initial) /\
  (forall level log_with_label obj args,
     blocked level (minLogLevel (run_fixed_calls fixed initial)) = true ->
     details.logConcurrent level log_with_label obj args (run_fixed_calls fixed initial)
     = run_fixed_calls fixed initial) /\
  (forall level log_with_label obj args,
     blocked level (minLogLevel (run_templated_calls templated initial)) = true ->
     details.logConcurrent level log_with_label obj args
       (run_templated_calls templated initial)
     = run_templated_calls templated initial).
Proof.
  pose proof (run_fixed_calls_between_calls fixed initial between_calls_initial)
    as Hfixed.
  pose proof (run_templated_calls_between_calls templated initial between_calls_initial)
    as Htemplated.
  split; [exact Hfixed |]. split; [exact Htemplated |]. split.
  - intros level log_with_label obj args Hgate.
    rewrite logConcurrent_blocked by exact Hgate.
    apply set_mtx_engaged_clear, Hfixed.
  - intros level log_with_label obj args Hgate.
    rewrite logConcurrent_blocked by exact Hgate.
    apply set_mtx_engaged_clear, Htemplated.
Qed.

Lemma every_reachable_state_is_between_calls_witness :
  debug (Text "hidden") []
    (run_fixed_calls
       [fixed_endTimer "t" 0;
        fixed_common
          (call_initLogFile "logs" "Log.log"
             {| create_directories_ec := None; ofstream_is_open := true |});
        fixed_setOutStream (caller_stream 1);
        fixed_common call_dumpLogFile] initial)
  = run_fixed_calls
      [fixed_endTimer "t" 0;
       fixed_common
         (call_initLogFile "logs" "Log.log"
            {| create_directories_ec := None; ofstream_is_open := true |});
       fixed_setOutStream (caller_stream 1);
       fixed_common call_dumpLogFile] initial.
Proof.
  destruct (every_reachable_state_is_between_calls
              [fixed_endTimer "t" 0;
               fixed_common
                 (call_initLogFile "logs" "Log.log"
                    {| create_directories_ec := None; ofstream_is_open := true |});
               fixed_setOutStream (caller_stream 1);
               fixed_common call_dumpLogFile] []) as (_ & _ & Hfiltered & _).
  apply Hfiltered. reflexivity.
Defined.

Lemma run_fixed_mtx (c : fixed_call) st :
  mtx (run_fixed c st) = mtx st + (if fixed_locked_miss c st then 1 else 0).
Proof.
  destruct c as [common | os | label now | label now | label prefix suffix now
                | label prefix suffix now].
  - cbn [run_fixed fixed_locked_miss]. rewrite run_call_mtx. lia.
  - cbn. lia.
  - by apply framed_run_fixed_timers.
  - by apply framed_run_fixed_timers.
  - by apply framed_run_fixed_timers.
  - by apply framed_run_fixed_timers.
Qed.

Lemma run_templated_mtx (c : templated_call) st :
  mtx (run_templated c st) = mtx st + (if templated_locked_miss c st then 1 else 0).
Proof.
  destruct c as [common | os | T label now | T label now
                | T level label prefix suffix now | T level label prefix suffix now].
  - cbn [run_templated templated_locked_miss]. rewrite run_call_mtx. lia.
  - cbn [run_templated templated_locked_miss]. destruct st; cbn. lia.
  - by apply framed_run_templated_timers.
  - by apply framed_run_templated_timers.
  - by apply framed_run_templated_timers.
  - by apply framed_run_templated_timers.
Qed.

(** The only calls that return with the mutex owned once more than before
    are the timer lookups that run under the lock and do not find their
    label ([endTimer] and [logDuration]; in the templated revision also
    [getTimer] and [logDurationPersistent]).  Every other call, in every
    state, returns with the ownership count it started with; so a sequence
    of calls without timer lookups leaves the count unchanged. *)
Theorem only_locked_misses_keep_the_mutex (c : fixed_call) (c' : templated_call)
    (calls : list call) st :
  mtx (run_fixed c st) = mtx st + (if fixed_locked_miss c st then 1 else 0) /\
  mtx (run_templated c' st) = mtx st + (if templated_locked_miss c' st then 1 else 0) /\
  mtx (run_fixed_calls (map fixed_common calls) st) = mtx st.
Proof.
  split; [apply run_fixed_mtx |]. split; [apply run_templated_mtx |].
  revert st. induction calls as [| common calls IH]; intros st; [reflexivity |].
  cbn [map run_fixed_calls fold_left]. unfold run_fixed_calls in IH. rewrite IH.
  apply run_call_mtx.
Qed.

(** ** Color after a file was opened *)

(** Opening a file turns coloring off but does not lock it off: after
    [enableColor] the logger writes its color sequences into the file.  A
    labelled call that passes the gate then appends to the file the color of
    its level, the bracketed label and the reset, and each argument's text
    between the color and the reset. *)
Theorem enableColor_colors_the_file (directory filename : string) (fs : filesystem)
    (level : LogLevel.t) (obj : Loggable) (args : list Loggable) st :
  empty directory = true \/ create_directories_ec fs = None ->
  ofstream_is_open fs = true ->
  blocked level (minLogLevel st) = false ->
  written (details.logConcurrent level true obj args
             (enableColor (initLogFile directory filename fs st))) =
    (written st ++
     emit logFile_rdbuf
       ([cols st level; "["; levelLabels st level; "] "; reset_col] ++
        flat_map (fun arg => [cols st level; representation arg; reset_col])
          (obj :: args)))%list.
Proof.
  intros Hdir Hopen Hgate.
  rewrite logConcurrent_written, initLogFile_opened by done.
  set (previous := if bool_decide (logFile st <> None) then dumpLogFile st else st).
  assert (Hmin : minLogLevel previous = minLogLevel st)
    by (unfold previous, dumpLogFile; by repeat case_match).
  assert (Hwritten : written previous = written st)
    by (unfold previous; case_match; [apply dumpLogFile_written | reflexivity]).
  assert (Hlabels : levelLabels previous = levelLabels st)
    by (unfold previous, dumpLogFile; by repeat case_match).
  assert (Hcols : cols previous = cols st)
    by (unfold previous, dumpLogFile; by repeat case_match).
  cbn [enableColor disableColor set_doColor set_outStream set_logFile minLogLevel
       written outStream].
  rewrite Hmin, Hgate, Hwritten. f_equal. f_equal.
  unfold line, decoration, colored.
  cbn [enableColor disableColor set_doColor set_outStream set_logFile doColor
       levelLabels cols].
  by rewrite Hlabels, Hcols.
Qed.

Lemma enableColor_colors_the_file_witness :
  chunks_on logFile_rdbuf
    (warn (Text "x") []
       (enableColor
          (initLogFile "logs" "Log.log"
             {| create_directories_ec := None; ofstream_is_open := true |} initial)))
  = [default_cols LogLevel.warn; "["; "WARNING"; "] "; reset_col;
     default_cols LogLevel.warn; "x"; reset_col].
Proof.
  unfold chunks_on, warn.
  rewrite (enableColor_colors_the_file "logs" "Log.log"
             {| create_directories_ec := None; ofstream_is_open := true |}
             LogLevel.warn (Text "x") [] initial);
    [reflexivity | by right | reflexivity | reflexivity].
Defined.
